(** * PocketBase adapter for Better Auth: filter compiler and CRUD facade

    A shallow embedding of [src/index.ts]: the where-clause compiler
    [parseWhere], the admin session bootstrap [ensureAuth] and the eight
    adapter operations, with the properties of the specification proved
    about them.

    Conventions of the embedding.
    - JavaScript strings are [string]; template literals are written with
      [+:+].
    - JavaScript numbers are modelled at integer values ([Z]); at those the
      default stringification is the decimal numeral ([pretty]), and
      [Math.floor (a / b)] is [a `div` b].
    - Objects used as records are [gmap string WhereValue].
    - Asynchronous code that calls the backend is written in a monad that
      threads the backend world, records every effect in a trace and
      carries thrown errors. *)

From stdpp Require Import gmap strings list pretty.
From Stdlib Require Import ZArith Ascii.

Local Open Scope string_scope.
Local Open Scope Z_scope.
Local Open Scope list_scope.

(** ** Conditions

    Modelled from the spec: the type [Where] is imported from better-auth
    and its declaration is not part of the sources. Section 3 of the
    specification gives a condition as [{ field, operator, value }] with
    the value a string, a number, a boolean or an array of primitives and
    the operator one of ten names. *)

(** A primitive: [string | number | boolean]. *)
Inductive Primitive : Type :=
  | PStr (s : string)
  | PNum (n : Z)
  | PBool (b : bool).

(** [Where.value]: a primitive or an array of primitives. *)
Inductive WhereValue : Type :=
  | VPrim (p : Primitive)
  | VArr (l : list Primitive).

(** [Where.operator], the closed enumeration the compiler switches on. *)
Inductive Operator : Type :=
  | op_eq | op_ne | op_in
  | op_contains | op_starts_with | op_ends_with
  | op_gt | op_gte | op_lt | op_lte.

Record Where : Type := mkWhere {
  field : string;
  operator : Operator;
  value : WhereValue;
}.

Global Instance Primitive_eq_dec : EqDecision Primitive.
Proof. solve_decision. Defined.
Global Instance WhereValue_eq_dec : EqDecision WhereValue.
Proof. solve_decision. Defined.
Global Instance Operator_eq_dec : EqDecision Operator.
Proof. solve_decision. Defined.

(** The one-character string holding a double quote. *)
Definition dquote : string := String "034"%char EmptyString.

(** ** Host-language primitives used by the compiler *)

Module JS.

(** [ToString] on a primitive, as a template literal applies it. *)
Definition ToString_prim (p : Primitive) : string :=
  match p with
  | PStr s => s
  | PNum n => pretty n
  | PBool true => "true"
  | PBool false => "false"
  end.

(** [Array.prototype.join]: the elements' texts with [sep] between
    them, the empty string for the empty array. *)
Definition Array_join (sep : string) (texts : list string) : string :=
  String.concat sep texts.

(** [ToString] on a condition value; an array stringifies as
    [join(",")] of its elements. *)
Definition ToString (v : WhereValue) : string :=
  match v with
  | VPrim p => ToString_prim p
  | VArr l => Array_join "," (ToString_prim <$> l)
  end.

End JS.

(** ** The filter compiler *)

(** [typeof v === "string" ? `"${v}"` : v] on an array element. *)
Definition quote_prim (p : Primitive) : Primitive :=
  match p with
  | PStr s => PStr (dquote +:+ s +:+ dquote)
  | _ => p
  end.

(** [const value = typeof item.value === "string" ? `"${item.value}"`
    : item.value]. *)
Definition quoted_value (v : WhereValue) : WhereValue :=
  match v with
  | VPrim p => VPrim (quote_prim p)
  | VArr l => VArr l
  end.

(** One iteration of the [for (const item of where)] loop: the [switch]
    on the operator, pushing onto [filters]. Under [in] the clause is
    pushed only when [Array.isArray(item.value)]. *)
Definition parseWhere_step (filters : list string) (item : Where)
  : list string :=
  let fld := field item in
  let val := quoted_value (value item) in
  match operator item with
  | op_eq => filters ++ [fld +:+ " = " +:+ JS.ToString val]
  | op_ne => filters ++ [fld +:+ " != " +:+ JS.ToString val]
  | op_in =>
      match value item with
      | VArr l =>
          let values :=
            JS.Array_join ", " (JS.ToString_prim <$> (quote_prim <$> l)) in
          filters ++ [fld +:+ " ?~ [" +:+ values +:+ "]"]
      | VPrim _ => filters
      end
  | op_contains =>
      filters ++ [fld +:+ " ~ " +:+ dquote
                    +:+ JS.ToString (value item) +:+ dquote]
  | op_starts_with =>
      filters ++ [fld +:+ " ~ " +:+ dquote
                    +:+ JS.ToString (value item) +:+ "%" +:+ dquote]
  | op_ends_with =>
      filters ++ [fld +:+ " ~ " +:+ dquote +:+ "%"
                    +:+ JS.ToString (value item) +:+ dquote]
  | op_gt => filters ++ [fld +:+ " > " +:+ JS.ToString val]
  | op_gte => filters ++ [fld +:+ " >= " +:+ JS.ToString val]
  | op_lt => filters ++ [fld +:+ " < " +:+ JS.ToString val]
  | op_lte => filters ++ [fld +:+ " <= " +:+ JS.ToString val]
  end.

(** [parseWhere]: absent or empty input gives the empty string; otherwise
    the loop fills [filters] from the empty array and the result is
    [filters.join(" && ")]. *)
Definition parseWhere (where_ : option (list Where)) : string :=
  match where_ with
  | None => EmptyString
  | Some [] => EmptyString
  | Some items => JS.Array_join " && " (fold_left parseWhere_step items [])
  end.

(** The clauses one condition contributes: what an iteration of the loop
    pushes onto an empty [filters]. *)
Definition rendered (item : Where) : list string := parseWhere_step [] item.

(** A condition the [switch] leaves without a clause. *)
Definition skipped (item : Where) : bool :=
  match operator item, value item with
  | op_in, VPrim _ => true
  | _, _ => false
  end.

(** ** Records, the backend client and the adapter configuration *)

(** A record of a collection: an object owned by the backend, a finite
    map from field names to values. *)
Abbreviation RecordModel := (gmap string WhereValue).

(** [record.id]: the value under the key [id], absent when the object has
    no such key. *)
Definition record_id (record : RecordModel) : option WhereValue :=
  record !! "id".

(** The options object of [getList]; a key that is missing or holds
    [undefined] is [None]. *)
Record ListOptions : Type := mkListOptions {
  opt_filter : option string;
  opt_sort : option string;
}.

(** What [getList] resolves to: the page and the backend's own count of
    all matching records. *)
Record ListResult : Type := mkListResult {
  items : list RecordModel;
  totalItems : Z;
}.

Inductive Direction : Type := asc | desc.

Record SortBy : Type := mkSortBy {
  sort_field : string;
  direction : Direction;
}.

(** [pbConfig]: a live PocketBase instance, or connection parameters. *)
Inductive PbConfig : Type :=
  | PbInstance
  | PbParams (url : string) (adminEmail adminPassword token : option string).

(** How a call ends: it returns a value or throws. *)
Inductive Outcome (E A : Type) : Type :=
  | Returned (a : A)
  | Thrown (e : E).
Arguments Returned {E A} a.
Arguments Thrown {E A} e.

(** The calls the adapter makes on the backend handle [pb]. *)
Inductive Call : Type :=
  | CollCreate (collection : string) (data : RecordModel)
  | CollGetList (collection : string) (page perPage : Z) (options : ListOptions)
  | CollUpdate (collection : string) (id : option WhereValue) (data : RecordModel)
  | CollDelete (collection : string) (id : option WhereValue)
  | AuthStoreSave (token : string)
  | AuthWithPassword (collection email password : string).

(** The calls on a collection's records, as opposed to the session. *)
Definition is_data_call (c : Call) : bool :=
  match c with
  | CollCreate _ _ | CollGetList _ _ _ _ | CollUpdate _ _ _ | CollDelete _ _ => true
  | AuthStoreSave _ | AuthWithPassword _ _ _ => false
  end.

(** The calls that write records. *)
Definition is_write_call (c : Call) : bool :=
  match c with
  | CollCreate _ _ | CollUpdate _ _ _ | CollDelete _ _ => true
  | _ => false
  end.

(** The login call and the token write of the session bootstrap. *)
Definition is_auth_call (c : Call) : bool :=
  match c with
  | AuthStoreSave _ | AuthWithPassword _ _ _ => true
  | _ => false
  end.

Section Adapter.

(** The backend world (the remote store, the session held in the handle,
    whatever decides whether a request fails) and the errors the client
    throws are the collaborator's own. *)
Context {World Error : Type}.

(** Modelled from the spec: the PocketBase client is an external library.
    Section 6 of the specification gives the outbound contract: per
    collection [create], [getList], [update] and [delete], and a session
    object with [token], [isValid], [save] and a login by email and
    password. Each call runs against the world and returns or throws. *)
Record PocketBase : Type := mkPocketBase {
  collection_create :
    string -> RecordModel -> World -> World * Outcome Error RecordModel;
  collection_getList :
    string -> Z -> Z -> ListOptions -> World -> World * Outcome Error ListResult;
  collection_update :
    string -> option WhereValue -> RecordModel ->
    World -> World * Outcome Error RecordModel;
  collection_delete :
    string -> option WhereValue -> World -> World * Outcome Error bool;
  collection_authWithPassword :
    string -> string -> string -> World -> World * Outcome Error unit;
  authStore_token : World -> string;
  authStore_isValid : World -> bool;
  authStore_save : string -> World -> World;
}.

(** What an execution leaves behind, in order: backend calls with the
    error they threw if any, calls of the host's [debugLog] hook (by
    method name; its payload echoes the arguments) and lines written
    with [console.error]. *)
Inductive Event : Type :=
  | EvCall (c : Call) (thrown : option Error)
  | EvDebugLog (method : string)
  | EvConsoleError (message : string) (error : Error).

(** Computations of the adapter: from a world to the new world, the
    events emitted and the outcome. *)
Definition M (A : Type) : Type :=
  World -> World * list Event * Outcome Error A.

Definition ret {A} (a : A) : M A := fun w => (w, [], Returned a).

Definition throw {A} (e : Error) : M A := fun w => (w, [], Thrown e).

Definition bind {A B} (m : M A) (k : A -> M B) : M B :=
  fun w =>
    match m w with
    | (w1, t1, Returned a) =>
        match k a w1 with (w2, t2, r) => (w2, t1 ++ t2, r) end
    | (w1, t1, Thrown e) => (w1, t1, Thrown e)
    end.

(** [try { m } catch (error) { handler error }]. *)
Definition try_catch {A} (m : M A) (handler : Error -> M A) : M A :=
  fun w =>
    match m w with
    | (w1, t1, Returned a) => (w1, t1, Returned a)
    | (w1, t1, Thrown e) =>
        match handler e w1 with (w2, t2, r) => (w2, t1 ++ t2, r) end
    end.

Definition emit (ev : Event) : M unit := fun w => (w, [ev], Returned tt).

(** A backend call, recorded with its outcome. *)
Definition perform {A} (c : Call) (f : World -> World * Outcome Error A)
  : M A :=
  fun w =>
    match f w with
    | (w1, Returned a) => (w1, [EvCall c None], Returned a)
    | (w1, Thrown e) => (w1, [EvCall c (Some e)], Thrown e)
    end.

(** A read of the handle's local state. *)
Definition read {A} (f : World -> A) : M A := fun w => (w, [], Returned (f w)).

Definition trace_of {A} (x : World * list Event * Outcome Error A)
  : list Event := snd (fst x).
Definition outcome_of {A} (x : World * list Event * Outcome Error A)
  : Outcome Error A := snd x.
Definition world_of {A} (x : World * list Event * Outcome Error A)
  : World := fst (fst x).

End Adapter.

Arguments PocketBase : clear implicits.
Arguments Event : clear implicits.
Arguments M : clear implicits.

Declare Scope adapter_scope.
Delimit Scope adapter_scope with adapter.
Notation "'let*' x ':=' m 'in' k" := (bind m (fun x => k))
  (at level 10, x name, m at level 100, k at level 200) : adapter_scope.
Notation "'do' m 'then' k" := (bind m (fun _ => k))
  (at level 10, m at level 100, k at level 200) : adapter_scope.

(** ** The adapter: [pocketBaseAdapter] *)

(** JavaScript truthiness of an optional string: absent and empty are
    falsy. *)
Definition truthy_string (o : option string) : option string :=
  match o with
  | Some s => if decide (s = EmptyString) then None else Some s
  | None => None
  end.

(** [limit || 50] on an optional number: absent and zero are falsy. *)
Definition or_default (o : option Z) (d : Z) : Z :=
  match o with
  | Some n => if decide (n = 0) then d else n
  | None => d
  end.

(** [filter || undefined]. *)
Definition or_undefined (filter : string) : option string :=
  if decide (filter = EmptyString) then None else Some filter.

(** [const page = offset ? Math.floor(offset / (limit || 50)) + 1 : 1]. *)
Definition findMany_page (limit offset : option Z) : Z :=
  match offset with
  | Some o => if decide (o = 0) then 1 else o `div` (or_default limit 50) + 1
  | None => 1
  end.

(** [const perPage = limit || 50]. *)
Definition findMany_perPage (limit : option Z) : Z := or_default limit 50.

(** The sort string: the field, with a leading [-] when the direction is
    [desc]; [undefined] without [sortBy]. *)
Definition findMany_sort (sortBy : option SortBy) : option string :=
  match sortBy with
  | Some sb =>
      Some ((match direction sb with desc => "-" | asc => EmptyString end)
              +:+ sort_field sb)
  | None => None
  end.

Section Operations.

Context {World Error : Type}.
Variable pb : PocketBase World Error.
Variable pbConfig : PbConfig.
Variable debugLogs : bool.
(** Supplied by the host framework: the collection name of a model. *)
Variable getModelName : string -> string.

Local Open Scope adapter_scope.

Abbreviation Op := (M World Error).

(** The host's [debugLog] hook. *)
Definition debugLog (method : string) : Op unit := emit (EvDebugLog method).

(** [if (debugLogs) console.error(message, error)]. *)
Definition log_error (message : string) (error : Error) : Op unit :=
  if debugLogs then emit (EvConsoleError message error) else ret tt.

Definition getList (collectionName : string) (page perPage : Z)
    (options : ListOptions) : Op ListResult :=
  perform (CollGetList collectionName page perPage options)
          (collection_getList pb collectionName page perPage options).

Definition pb_update (collectionName : string) (id : option WhereValue)
    (data : RecordModel) : Op RecordModel :=
  perform (CollUpdate collectionName id data)
          (collection_update pb collectionName id data).

Definition pb_delete (collectionName : string) (id : option WhereValue)
  : Op bool :=
  perform (CollDelete collectionName id)
          (collection_delete pb collectionName id).

(** [ensureAuth]: nothing for a live instance; otherwise the token is
    preferred, then the admin credentials. *)
Definition ensureAuth : Op unit :=
  match pbConfig with
  | PbInstance => ret tt
  | PbParams url adminEmail adminPassword token =>
      match truthy_string token with
      | Some tok =>
          let* current := read (authStore_token pb) in
          if decide (current = tok) then ret tt
          else perform (AuthStoreSave tok)
                 (fun w => (authStore_save pb tok w, Returned tt))
      | None =>
          match truthy_string adminEmail, truthy_string adminPassword with
          | Some email, Some password =>
              let* valid := read (authStore_isValid pb) in
              if valid then ret tt
              else perform (AuthWithPassword "_superusers" email password)
                     (collection_authWithPassword pb "_superusers" email password)
          | _, _ => ret tt
          end
      end
  end.

Definition create (data : RecordModel) (model : string) : Op RecordModel :=
  do ensureAuth then
  do debugLog "create" then
  let collectionName := getModelName model in
  try_catch
    (let* record := perform (CollCreate collectionName data)
                      (collection_create pb collectionName data) in
     ret record)
    (fun error =>
       do log_error ("[PocketBase] Create error in " +:+ collectionName +:+ ":")
                    error then
       throw error).

Definition findOne (model : string) (where_ : option (list Where))
  : Op (option RecordModel) :=
  do ensureAuth then
  do debugLog "findOne" then
  let collectionName := getModelName model in
  let filter := parseWhere where_ in
  try_catch
    (let* result := getList collectionName 1 1
                      (mkListOptions (Some filter) None) in
     ret (head (items result)))
    (fun error =>
       do log_error ("[PocketBase] FindOne error in " +:+ collectionName +:+ ":")
                    error then
       ret None).

Definition findMany (model : string) (where_ : option (list Where))
    (limit offset : option Z) (sortBy : option SortBy)
  : Op (list RecordModel) :=
  do ensureAuth then
  do debugLog "findMany" then
  let collectionName := getModelName model in
  let filter := parseWhere where_ in
  let page := findMany_page limit offset in
  let perPage := findMany_perPage limit in
  let sort := findMany_sort sortBy in
  try_catch
    (let* result := getList collectionName page perPage
                      (mkListOptions (or_undefined filter) sort) in
     ret (items result))
    (fun error =>
       do log_error ("[PocketBase] FindMany error in " +:+ collectionName +:+ ":")
                    error then
       ret []).

Definition count (model : string) (where_ : option (list Where)) : Op Z :=
  do ensureAuth then
  do debugLog "count" then
  let collectionName := getModelName model in
  let filter := parseWhere where_ in
  try_catch
    (let* result := getList collectionName 1 1
                      (mkListOptions (or_undefined filter) None) in
     ret (totalItems result))
    (fun error =>
       do log_error ("[PocketBase] Count error in " +:+ collectionName +:+ ":")
                    error then
       ret 0).

(** [update]: the first match is fetched, patched by identifier, and the
    result is [{ ...updated, ...update }], where the keys of [update]
    win. *)
Definition update (model : string) (where_ : option (list Where))
    (update_ : RecordModel) : Op (option RecordModel) :=
  do ensureAuth then
  do debugLog "update" then
  let collectionName := getModelName model in
  let filter := parseWhere where_ in
  try_catch
    (let* result := getList collectionName 1 1
                      (mkListOptions (Some filter) None) in
     match items result with
     | [] => ret None
     | record :: _ =>
         let* updated := pb_update collectionName (record_id record) update_ in
         ret (Some (update_ ∪ updated))
     end)
    (fun error =>
       do log_error ("[PocketBase] Update error in " +:+ collectionName +:+ ":")
                    error then
       ret None).

(** [for (const record of result.items) { await update(...); count++ }]. *)
Fixpoint updateMany_loop (collectionName : string) (update_ : RecordModel)
    (records : list RecordModel) (count_ : Z) : Op Z :=
  match records with
  | [] => ret count_
  | record :: rest =>
      do pb_update collectionName (record_id record) update_ then
      updateMany_loop collectionName update_ rest (count_ + 1)
  end.

Definition updateMany (model : string) (where_ : option (list Where))
    (update_ : RecordModel) : Op Z :=
  do ensureAuth then
  do debugLog "updateMany" then
  let collectionName := getModelName model in
  let filter := parseWhere where_ in
  try_catch
    (let* result := getList collectionName 1 500
                      (mkListOptions (or_undefined filter) None) in
     updateMany_loop collectionName update_ (items result) 0)
    (fun error =>
       do log_error ("[PocketBase] UpdateMany error in " +:+ collectionName +:+ ":")
                    error then
       ret 0).

Definition delete_ (model : string) (where_ : option (list Where)) : Op unit :=
  do ensureAuth then
  do debugLog "delete" then
  let collectionName := getModelName model in
  let filter := parseWhere where_ in
  try_catch
    (let* result := getList collectionName 1 1
                      (mkListOptions (Some filter) None) in
     match items result with
     | record :: _ =>
         do pb_delete collectionName (record_id record) then ret tt
     | [] => ret tt
     end)
    (fun error =>
       log_error ("[PocketBase] Delete error in " +:+ collectionName +:+ ":")
                 error).

(** [for (const record of result.items) { await delete(...); count++ }]. *)
Fixpoint deleteMany_loop (collectionName : string)
    (records : list RecordModel) (count_ : Z) : Op Z :=
  match records with
  | [] => ret count_
  | record :: rest =>
      do pb_delete collectionName (record_id record) then
      deleteMany_loop collectionName rest (count_ + 1)
  end.

Definition deleteMany (model : string) (where_ : option (list Where)) : Op Z :=
  do ensureAuth then
  do debugLog "deleteMany" then
  let collectionName := getModelName model in
  let filter := parseWhere where_ in
  try_catch
    (let* result := getList collectionName 1 500
                      (mkListOptions (or_undefined filter) None) in
     deleteMany_loop collectionName (items result) 0)
    (fun error =>
       do log_error ("[PocketBase] DeleteMany error in " +:+ collectionName +:+ ":")
                    error then
       ret 0).

End Operations.

(** ** The adapter object as its caller sees it *)

(** A method call on the adapter, with its arguments. *)
Inductive Request : Type :=
  | Create (data : RecordModel) (model : string)
  | FindOne (model : string) (where_ : option (list Where))
  | FindMany (model : string) (where_ : option (list Where))
             (limit offset : option Z) (sortBy : option SortBy)
  | Count (model : string) (where_ : option (list Where))
  | Update (model : string) (where_ : option (list Where)) (update_ : RecordModel)
  | UpdateMany (model : string) (where_ : option (list Where)) (update_ : RecordModel)
  | Delete (model : string) (where_ : option (list Where))
  | DeleteMany (model : string) (where_ : option (list Where)).

(** What a method resolves to. *)
Inductive Response : Type :=
  | RNull
  | RUndefined
  | RRecord (record : RecordModel)
  | RRecords (records : list RecordModel)
  | RNumber (n : Z).

Definition nullable (o : option RecordModel) : Response :=
  match o with Some record => RRecord record | None => RNull end.

Section Invoke.

Context {World Error : Type}.
Variable pb : PocketBase World Error.
Variable pbConfig : PbConfig.
Variable debugLogs : bool.
Variable getModelName : string -> string.

Local Open Scope adapter_scope.

(** Calling the method that the request names. *)
Definition invoke (req : Request) : M World Error Response :=
  match req with
  | Create data model =>
      let* r := create pb pbConfig debugLogs getModelName data model in
      ret (RRecord r)
  | FindOne model where_ =>
      let* r := findOne pb pbConfig debugLogs getModelName model where_ in
      ret (nullable r)
  | FindMany model where_ limit offset sortBy =>
      let* r := findMany pb pbConfig debugLogs getModelName
                  model where_ limit offset sortBy in
      ret (RRecords r)
  | Count model where_ =>
      let* r := count pb pbConfig debugLogs getModelName model where_ in
      ret (RNumber r)
  | Update model where_ update_ =>
      let* r := update pb pbConfig debugLogs getModelName model where_ update_ in
      ret (nullable r)
  | UpdateMany model where_ update_ =>
      let* r := updateMany pb pbConfig debugLogs getModelName
                  model where_ update_ in
      ret (RNumber r)
  | Delete model where_ =>
      do delete_ pb pbConfig debugLogs getModelName model where_ then
      ret RUndefined
  | DeleteMany model where_ =>
      let* r := deleteMany pb pbConfig debugLogs getModelName model where_ in
      ret (RNumber r)
  end.

(** A caller issuing requests one after the other on the same adapter,
    whatever each of them returned or threw. *)
Fixpoint run_requests (reqs : list Request) (w : World)
  : World * list (Event Error) :=
  match reqs with
  | [] => (w, [])
  | req :: rest =>
      match invoke req w with
      | (w1, t1, _) =>
          match run_requests rest w1 with
          | (w2, t2) => (w2, t1 ++ t2)
          end
      end
  end.

End Invoke.

(** ** Reading traces *)

Section Traces.

Context {Error : Type}.

(** The backend calls of a trace, in order. *)
Definition calls_of (t : list (Event Error)) : list Call :=
  omap (fun ev => match ev with EvCall c _ => Some c | _ => None end) t.

(** The calls on collections among them. *)
Definition data_calls (t : list (Event Error)) : list Call :=
  List.filter is_data_call (calls_of t).

(** The errors thrown by calls on collections. *)
Definition data_failures (t : list (Event Error)) : list Error :=
  omap (fun ev =>
          match ev with
          | EvCall c (Some e) => if is_data_call c then Some e else None
          | _ => None
          end) t.

(** An event of the session bootstrap: a login or a token write. *)
Definition is_session_event (ev : Event Error) : Prop :=
  match ev with
  | EvCall c _ => is_auth_call c = true
  | _ => False
  end.

(** An event that is not a call on a collection. *)
Definition no_data_event (ev : Event Error) : Prop :=
  match ev with
  | EvCall c _ => is_data_call c = false
  | _ => True
  end.

(** An event that is neither a login nor a token write. *)
Definition no_auth_event (ev : Event Error) : Prop :=
  match ev with
  | EvCall c _ => is_auth_call c = false
  | _ => True
  end.

(** A computation all of whose events satisfy [P], from every world. *)
Definition quiet {World A} (P : Event Error -> Prop) (m : M World Error A)
  : Prop :=
  forall w, Forall P (trace_of (m w)).

(** A computation that throws the error of any call on a collection
    that failed in it. *)
Definition propagates {World A} (m : M World Error A) : Prop :=
  forall w e, e ∈ data_failures (trace_of (m w)) ->
              outcome_of (m w) = Thrown e.

End Traces.

(** ** An in-memory backend

    A small PocketBase double with one table: it serves pages of its rows,
    applies writes by identifier, and throws on every request while it is
    offline. *)

Module Mock.

Record World : Type := mkWorld {
  rows : list RecordModel;
  online : bool;
  token : string;
  valid : bool;
}.

Definition Error : Type := string.

Definition guard {A} (w : World) (k : World * Outcome Error A)
  : World * Outcome Error A :=
  if online w then k else (w, Thrown "ClientResponseError 0").

Definition page_of (page perPage : Z) (l : list RecordModel)
  : list RecordModel :=
  take (Z.to_nat perPage) (drop (Z.to_nat ((page - 1) * perPage)) l).

Definition has_id (id : option WhereValue) (r : RecordModel) : bool :=
  bool_decide (record_id r = id).

Definition pb : PocketBase World Error := {|
  collection_create _ data w :=
    guard w (mkWorld (rows w ++ [data]) (online w) (token w) (valid w),
             Returned data);
  collection_getList _ page perPage _ w :=
    guard w (w, Returned (mkListResult (page_of page perPage (rows w))
                                       (Z.of_nat (length (rows w)))));
  collection_update _ id data w :=
    guard w
      match List.find (has_id id) (rows w) with
      | Some r =>
          (mkWorld ((fun r' => if has_id id r' then data ∪ r' else r')
                      <$> rows w)
                   (online w) (token w) (valid w),
           Returned (data ∪ r))
      | None => (w, Thrown "ClientResponseError 404")
      end;
  collection_delete _ id w :=
    guard w (mkWorld (List.filter (fun r => negb (has_id id r)) (rows w))
                     (online w) (token w) (valid w),
             Returned true);
  collection_authWithPassword _ _ _ w :=
    guard w (mkWorld (rows w) (online w) "superuser-token" true, Returned tt);
  authStore_token := token;
  authStore_isValid := valid;
  authStore_save tok w := mkWorld (rows w) (online w) tok true;
|}.

Definition alice : RecordModel :=
  {[ "id" := VPrim (PStr "r1"); "name" := VPrim (PStr "alice") ]}.
Definition bob : RecordModel :=
  {[ "id" := VPrim (PStr "r2"); "name" := VPrim (PStr "bob") ]}.

Definition up : World := mkWorld [alice; bob] true EmptyString false.
Definition down : World := mkWorld [alice; bob] false EmptyString false.
Definition empty : World := mkWorld [] true EmptyString false.

Definition getModelName (model : string) : string := model.

End Mock.

(** ** The documented rendering

    The template table of the specification, written down on its own so
    that the compiler can be compared with it. *)

Module Documented.

(** The literal textual form of a primitive. *)
Definition text (p : Primitive) : string :=
  match p with
  | PStr s => s
  | PNum n => pretty n
  | PBool b => if b then "true" else "false"
  end.

(** A literal: double-quoted iff it is a string. *)
Definition literal (p : Primitive) : string :=
  match p with
  | PStr s => dquote +:+ s +:+ dquote
  | _ => text p
  end.

(** The comparator token of the six comparison operators. *)
Definition comparator (op : Operator) : option string :=
  match op with
  | op_eq => Some "="
  | op_ne => Some "!="
  | op_gt => Some ">"
  | op_gte => Some ">="
  | op_lt => Some "<"
  | op_lte => Some "<="
  | _ => None
  end.

(** The clause documented for a condition; nothing is documented for
    [in] on a non-array or for an array under another operator. *)
Definition template (item : Where) : option string :=
  match operator item, value item with
  | op_in, VArr l =>
      Some (field item +:+ " ?~ ["
              +:+ String.concat ", " (literal <$> l) +:+ "]")
  | op_in, VPrim _ => None
  | _, VArr _ => None
  | op_contains, VPrim p =>
      Some (field item +:+ " ~ " +:+ dquote +:+ text p +:+ dquote)
  | op_starts_with, VPrim p =>
      Some (field item +:+ " ~ " +:+ dquote +:+ text p +:+ "%" +:+ dquote)
  | op_ends_with, VPrim p =>
      Some (field item +:+ " ~ " +:+ dquote +:+ "%" +:+ text p +:+ dquote)
  | op, VPrim p =>
      cmp ← comparator op;
      Some (field item +:+ " " +:+ cmp +:+ " " +:+ literal p)
  end.

(** What each method does when a call on a collection throws [e]:
    [create] throws [e] again, every method that works by filter
    resolves to its default. *)
Definition on_failure {Error} (req : Request) (e : Error)
  : Outcome Error Response :=
  match req with
  | Create _ _ => Thrown e
  | FindOne _ _ => Returned RNull
  | FindMany _ _ _ _ _ => Returned (RRecords [])
  | Count _ _ => Returned (RNumber 0)
  | Update _ _ _ => Returned RNull
  | UpdateMany _ _ _ => Returned (RNumber 0)
  | Delete _ _ => Returned RUndefined
  | DeleteMany _ _ => Returned (RNumber 0)
  end.

(** The page size of [findMany]: the given limit, 50 when there is
    none to use. *)
Definition pageSize (limit : option Z) : Z :=
  match limit with
  | Some l => if decide (l = 0) then 50 else l
  | None => 50
  end.

(** The page number of [findMany]: [floor(offset / pageSize) + 1] when
    an offset is given, 1 otherwise. *)
Definition page (limit offset : option Z) : Z :=
  match offset with
  | Some o => o `div` pageSize limit + 1
  | None => 1
  end.

End Documented.

(** ** Vocabulary for the further properties *)

(** The conjunction of two compiled filters, either of which may be the
    empty filter. *)
Definition and_filters (a b : string) : string :=
  if decide (a = EmptyString) then b
  else if decide (b = EmptyString) then a
  else a +:+ " && " +:+ b.

(** The model a request names. *)
Definition request_model (req : Request) : string :=
  match req with
  | Create _ model | FindOne model _ | FindMany model _ _ _ _
  | Count model _ | Update model _ _ | UpdateMany model _ _
  | Delete model _ | DeleteMany model _ => model
  end.

(** The same request with other conditions; [create] takes none. *)
Definition set_where (req : Request) (where_ : option (list Where)) : Request :=
  match req with
  | Create data model => Create data model
  | FindOne model _ => FindOne model where_
  | FindMany model _ limit offset sortBy =>
      FindMany model where_ limit offset sortBy
  | Count model _ => Count model where_
  | Update model _ update_ => Update model where_ update_
  | UpdateMany model _ update_ => UpdateMany model where_ update_
  | Delete model _ => Delete model where_
  | DeleteMany model _ => DeleteMany model where_
  end.

Definition is_create (req : Request) : bool :=
  match req with Create _ _ => true | _ => false end.

(** The collection a call addresses; the token write addresses none. *)
Definition call_collection (c : Call) : option string :=
  match c with
  | CollCreate collection _ | CollGetList collection _ _ _
  | CollUpdate collection _ _ | CollDelete collection _
  | AuthWithPassword collection _ _ => Some collection
  | AuthStoreSave _ => None
  end.

(** The kinds of calls on collections found in the body of each method. *)
Definition may_issue (req : Request) (c : Call) : bool :=
  match req, c with
  | Create _ _, CollCreate _ _ => true
  | (FindOne _ _ | FindMany _ _ _ _ _ | Count _ _), CollGetList _ _ _ _ => true
  | (Update _ _ _ | UpdateMany _ _ _), (CollGetList _ _ _ _ | CollUpdate _ _ _) => true
  | (Delete _ _ | DeleteMany _ _), (CollGetList _ _ _ _ | CollDelete _ _) => true
  | _, _ => false
  end.

(** The call that patches one record, and the call that deletes one. *)
Definition update_call (collectionName : string) (update_ : RecordModel)
    (record : RecordModel) : Call :=
  CollUpdate collectionName (record_id record) update_.

Definition delete_call (collectionName : string) (record : RecordModel) : Call :=
  CollDelete collectionName (record_id record).

(** The calls of a trace that write records. *)
Definition write_calls {Error} (t : list (Event Error)) : list Call :=
  List.filter is_write_call (calls_of t).

(** The name of a method in its [console.error] line. *)
Definition error_label (req : Request) : string :=
  match req with
  | Create _ _ => "Create"
  | FindOne _ _ => "FindOne"
  | FindMany _ _ _ _ _ => "FindMany"
  | Count _ _ => "Count"
  | Update _ _ _ => "Update"
  | UpdateMany _ _ _ => "UpdateMany"
  | Delete _ _ => "Delete"
  | DeleteMany _ _ => "DeleteMany"
  end.

(** The line a method writes when it catches an error:
    [`[PocketBase] ${label} error in ${collectionName}:`]. *)
Definition error_message (req : Request) (collectionName : string) : string :=
  "[PocketBase] " +:+ error_label req +:+ " error in " +:+ collectionName +:+ ":".

(** A line written with [console.error]. *)
Definition is_console_event {Error} (ev : Event Error) : bool :=
  match ev with EvConsoleError _ _ => true | _ => false end.

(** An event that, if it is a call on a collection, is one the method may
    issue, on the collection of the request's model. *)
Definition on_target_of {Error} (getModelName : string -> string)
    (req : Request) (ev : Event Error) : Prop :=
  match ev with
  | EvCall c _ =>
      is_data_call c = true ->
      may_issue req c = true
      /\ call_collection c = Some (getModelName (request_model req))
  | _ => True
  end.

(** What the handler of a [try] emits: its line when [debugLogs] is on,
    nothing otherwise. *)
Definition handler_line_of {Error} (debugLogs : bool) (message : string)
    (e : Error) : list (Event Error) :=
  if debugLogs then [EvConsoleError message e] else [].

(** The logins and token writes of a trace. *)
Definition auth_calls {Error} (t : list (Event Error)) : list Call :=
  List.filter is_auth_call (calls_of t).

(** A computation that keeps a property of the backend world. *)
Definition preserves {World Error A} (Inv : World -> Prop)
    (m : M World Error A) : Prop :=
  forall w, Inv w -> Inv (world_of (m w)).

(** The backend's answers make the patch of one of [records] throw [e]:
    the patches of the records before it return, each on the world the
    one before left, and the patch of that record throws [e]. *)
Inductive patch_throws {World Error} (pb : PocketBase World Error)
    (collectionName : string) (update_ : RecordModel)
  : list RecordModel -> World -> Error -> Prop :=
  | patch_throws_here record rest w w' e :
      collection_update pb collectionName (record_id record) update_ w
      = (w', Thrown e) ->
      patch_throws pb collectionName update_ (record :: rest) w e
  | patch_throws_later record rest w w' updated e :
      collection_update pb collectionName (record_id record) update_ w
      = (w', Returned updated) ->
      patch_throws pb collectionName update_ rest w' e ->
      patch_throws pb collectionName update_ (record :: rest) w e.

(** The same for the deletion of one of [records]. *)
Inductive deletion_throws {World Error} (pb : PocketBase World Error)
    (collectionName : string)
  : list RecordModel -> World -> Error -> Prop :=
  | deletion_throws_here record rest w w' e :
      collection_delete pb collectionName (record_id record) w
      = (w', Thrown e) ->
      deletion_throws pb collectionName (record :: rest) w e
  | deletion_throws_later record rest w w' deleted e :
      collection_delete pb collectionName (record_id record) w
      = (w', Returned deleted) ->
      deletion_throws pb collectionName rest w' e ->
      deletion_throws pb collectionName (record :: rest) w e.

(** The calls on collections made after the first call on a collection
    that threw. *)
Fixpoint calls_after_failure {Error} (t : list (Event Error)) : list Call :=
  match t with
  | [] => []
  | EvCall c (Some _) :: rest =>
      if is_data_call c then data_calls rest else calls_after_failure rest
  | _ :: rest => calls_after_failure rest
  end.

(** ** A backend that protects one record

    The in-memory backend, except that it refuses with an error to patch
    or delete the record with a given identifier. *)

Module Protecting.

Definition refuse {A} (protected id : option WhereValue) (w : Mock.World)
    (k : Mock.World * Outcome Mock.Error A)
  : Mock.World * Outcome Mock.Error A :=
  if decide (id = protected) then (w, Thrown "ClientResponseError 403") else k.

Definition pb (protected : option WhereValue)
  : PocketBase Mock.World Mock.Error := {|
  collection_create := collection_create Mock.pb;
  collection_getList := collection_getList Mock.pb;
  collection_update collection id data w :=
    refuse protected id w (collection_update Mock.pb collection id data w);
  collection_delete collection id w :=
    refuse protected id w (collection_delete Mock.pb collection id w);
  collection_authWithPassword := collection_authWithPassword Mock.pb;
  authStore_token := authStore_token Mock.pb;
  authStore_isValid := authStore_isValid Mock.pb;
  authStore_save := authStore_save Mock.pb;
|}.

(** The identifier of the second record of [Mock.up]. *)
Definition r2 : option WhereValue := Some (VPrim (PStr "r2")).

End Protecting.

(** The lines of a trace written with [console.error]. *)
Definition console_lines {Error} (t : list (Event Error)) : list (Event Error) :=
  List.filter is_console_event t.

(** A body of a [try]: it writes no line itself, and the failures of its
    calls on collections are exactly the error it throws, if it throws. *)
Definition fails_fast {World Error A} (m : M World Error A) : Prop :=
  forall w,
    console_lines (trace_of (m w)) = []
    /\ data_failures (trace_of (m w))
       = match outcome_of (m w) with
         | Returned _ => []
         | Thrown e => [e]
         end.

(** * Properties of the filter compiler *)

Section Compiler.

Implicit Types (item : Where) (items : list Where) (filters : list string).

Lemma parseWhere_step_push filters item :
  parseWhere_step filters item = filters ++ rendered item.
Proof.
  unfold rendered, parseWhere_step.
  destruct (operator item); try reflexivity.
  destruct (value item); simpl; [by rewrite app_nil_r | reflexivity].
Qed.

Lemma parseWhere_loop items filters :
  fold_left parseWhere_step items filters
  = filters ++ flat_map rendered items.
Proof.
  revert filters. induction items as [|item items IH]; intros filters; simpl.
  - by rewrite app_nil_r.
  - rewrite IH, parseWhere_step_push. by rewrite <- app_assoc.
Qed.

Lemma parseWhere_join items :
  parseWhere (Some items) = JS.Array_join " && " (flat_map rendered items).
Proof.
  destruct items as [|item items]; [reflexivity|].
  unfold parseWhere. by rewrite parseWhere_loop.
Qed.

Lemma rendered_length item :
  length (rendered item) = if skipped item then 0%nat else 1%nat.
Proof.
  unfold rendered, skipped, parseWhere_step.
  destruct (operator item), (value item); reflexivity.
Qed.

Lemma literal_quote_prim p :
  JS.ToString_prim (quote_prim p) = Documented.literal p.
Proof. by destruct p as [s|n|[]]. Qed.

Lemma text_ToString_prim p : JS.ToString_prim p = Documented.text p.
Proof. by destruct p as [s|n|[]]. Qed.

Lemma rendered_template item t :
  Documented.template item = Some t -> rendered item = [t].
Proof.
  destruct item as [f op v]. unfold Documented.template, rendered, parseWhere_step.
  destruct op, v as [p|l]; simpl; intros [= <-];
    rewrite <- ?literal_quote_prim, <- ?text_ToString_prim; try reflexivity.
  rewrite <- list_fmap_compose. unfold JS.Array_join. do 5 f_equal.
  apply list_fmap_ext. intros _ p _. simpl. by rewrite literal_quote_prim.
Qed.

Lemma parseWhere_singleton item t :
  Documented.template item = Some t -> parseWhere (Some [item]) = t.
Proof.
  intros Ht. rewrite parseWhere_join. simpl.
  rewrite (rendered_template item t Ht). reflexivity.
Qed.

End Compiler.

(** The unit tests of [adapter.test.ts] on the compiler. *)
Example test_empty_where :
  parseWhere None = EmptyString /\ parseWhere (Some []) = EmptyString.
Proof. split; reflexivity. Qed.

Example test_eq_operator :
  parseWhere (Some [mkWhere "email" op_eq (VPrim (PStr "test@example.com"))])
  = "email = " +:+ dquote +:+ "test@example.com" +:+ dquote.
Proof. reflexivity. Qed.

Example test_in_operator :
  parseWhere (Some [mkWhere "id" op_in (VArr [PStr "1"; PStr "2"; PStr "3"])])
  = "id ?~ [" +:+ dquote +:+ "1" +:+ dquote +:+ ", "
      +:+ dquote +:+ "2" +:+ dquote +:+ ", "
      +:+ dquote +:+ "3" +:+ dquote +:+ "]".
Proof. reflexivity. Qed.

Example test_ne_operator :
  parseWhere (Some [mkWhere "status" op_ne (VPrim (PStr "active"))])
  = "status != " +:+ dquote +:+ "active" +:+ dquote.
Proof. reflexivity. Qed.

Example test_contains_operator :
  parseWhere (Some [mkWhere "name" op_contains (VPrim (PStr "john"))])
  = "name ~ " +:+ dquote +:+ "john" +:+ dquote.
Proof. reflexivity. Qed.

Example test_comparison_operators :
  parseWhere (Some [mkWhere "age" op_gt (VPrim (PNum 18))]) = "age > 18"
  /\ parseWhere (Some [mkWhere "score" op_gte (VPrim (PNum 100))]) = "score >= 100"
  /\ parseWhere (Some [mkWhere "price" op_lt (VPrim (PNum 50))]) = "price < 50"
  /\ parseWhere (Some [mkWhere "quantity" op_lte (VPrim (PNum 10))])
     = "quantity <= 10".
Proof. repeat split. Qed.

Example test_starts_with_operator :
  parseWhere (Some [mkWhere "email" op_starts_with (VPrim (PStr "admin"))])
  = "email ~ " +:+ dquote +:+ "admin%" +:+ dquote.
Proof. reflexivity. Qed.

Example test_ends_with_operator :
  parseWhere (Some [mkWhere "email" op_ends_with (VPrim (PStr "@example.com"))])
  = "email ~ " +:+ dquote +:+ "%@example.com" +:+ dquote.
Proof. reflexivity. Qed.

Example test_sort_rendering :
  findMany_sort (Some (mkSortBy "age" desc)) = Some "-age"
  /\ findMany_sort (Some (mkSortBy "age" asc)) = Some "age"
  /\ findMany_sort None = None.
Proof. repeat split. Qed.

Example test_numeric_without_quotes :
  parseWhere (Some [mkWhere "count" op_eq (VPrim (PNum 42))]) = "count = 42".
Proof. reflexivity. Qed.

(** C1. For a single condition under any of the ten operators, [parseWhere]
    returns exactly the documented template: [field = value] and the other
    five comparisons with the value double-quoted iff it is a string,
    [field ?~ [v1, v2, ...]] for [in] on an array with the elements
    separated by comma and space and each quoted iff it is a string, and
    [field ~ "value"], [field ~ "value%"], [field ~ "%value"] for
    [contains], [starts_with], [ends_with]. *)
Theorem parseWhere_single_template (item : Where) (t : string) :
  Documented.template item = Some t ->
  parseWhere (Some [item]) = t.
Proof. exact (parseWhere_singleton item t). Qed.

Lemma parseWhere_single_template_witness :
  parseWhere (Some [mkWhere "id" op_in (VArr [PStr "1"; PNum 2; PBool true])])
  = "id ?~ [" +:+ dquote +:+ "1" +:+ dquote +:+ ", 2, true]".
Proof. apply parseWhere_single_template. reflexivity. Defined.

(** C2. [parseWhere] gives the empty string for an absent or empty list;
    otherwise every condition contributes its clause (none when it is
    skipped, one otherwise) and the result is those clauses, in input
    order and all of them, joined with [ && ] and nothing else around
    them. The two conditions [status eq "active"], [age gte 18] compile to
    [status = "active" && age >= 18]. *)
Theorem parseWhere_conjunction :
  parseWhere None = EmptyString
  /\ parseWhere (Some []) = EmptyString
  /\ (forall items : list Where,
        parseWhere (Some items)
        = String.concat " && " (flat_map rendered items))
  /\ (forall item : Where,
        length (rendered item) = if skipped item then 0%nat else 1%nat)
  /\ parseWhere (Some [mkWhere "status" op_eq (VPrim (PStr "active"));
                       mkWhere "age" op_gte (VPrim (PNum 18))])
     = "status = " +:+ dquote +:+ "active" +:+ dquote +:+ " && age >= 18".
Proof.
  split; [reflexivity|]. split; [reflexivity|].
  split; [exact parseWhere_join|]. split; [exact rendered_length|].
  reflexivity.
Qed.

(** C5. A condition whose operator is [in] and whose value is not an
    array produces no clause and raises nothing: the list compiles as if
    the condition were not there, the conditions around it rendering and
    joining as usual. *)
Theorem parseWhere_in_non_array_skipped
    (before after : list Where) (f : string) (p : Primitive) :
  rendered (mkWhere f op_in (VPrim p)) = []
  /\ parseWhere (Some [mkWhere f op_in (VPrim p)]) = EmptyString
  /\ parseWhere (Some (before ++ mkWhere f op_in (VPrim p) :: after))
     = parseWhere (Some (before ++ after)).
Proof.
  split; [reflexivity|]. split; [reflexivity|].
  rewrite !parseWhere_join, !flat_map_app. reflexivity.
Qed.

(** C6, as stated, fails: under [contains] a numeric value is emitted
    inside double quotes. *)
Lemma parseWhere_contains_number_quoted :
  parseWhere (Some [mkWhere "age" op_contains (VPrim (PNum 42))])
  = "age ~ " +:+ dquote +:+ "42" +:+ dquote
  /\ parseWhere (Some [mkWhere "age" op_contains (VPrim (PNum 42))])
     <> "age ~ 42".
Proof. split; [reflexivity | discriminate]. Qed.

(** C6, amended. Under the six comparison operators a string value is
    emitted double-quoted and a number or boolean bare, in its literal
    textual form; the elements of an array under [in] follow the same
    rule; under [contains], [starts_with] and [ends_with] the text of the
    value is always placed inside double quotes, whether the value is a
    string, a number or a boolean. *)
Theorem parseWhere_quoting (f : string) :
  (forall op cmp s,
      Documented.comparator op = Some cmp ->
      parseWhere (Some [mkWhere f op (VPrim (PStr s))])
      = f +:+ " " +:+ cmp +:+ " " +:+ dquote +:+ s +:+ dquote)
  /\ (forall op cmp n,
        Documented.comparator op = Some cmp ->
        parseWhere (Some [mkWhere f op (VPrim (PNum n))])
        = f +:+ " " +:+ cmp +:+ " " +:+ pretty n)
  /\ (forall op cmp b,
        Documented.comparator op = Some cmp ->
        parseWhere (Some [mkWhere f op (VPrim (PBool b))])
        = f +:+ " " +:+ cmp +:+ " " +:+ (if b then "true" else "false"))
  /\ (forall l,
        parseWhere (Some [mkWhere f op_in (VArr l)])
        = f +:+ " ?~ [" +:+ String.concat ", " (Documented.literal <$> l) +:+ "]")
  /\ (forall p,
        parseWhere (Some [mkWhere f op_contains (VPrim p)])
        = f +:+ " ~ " +:+ dquote +:+ Documented.text p +:+ dquote
        /\ parseWhere (Some [mkWhere f op_starts_with (VPrim p)])
           = f +:+ " ~ " +:+ dquote +:+ Documented.text p +:+ "%" +:+ dquote
        /\ parseWhere (Some [mkWhere f op_ends_with (VPrim p)])
           = f +:+ " ~ " +:+ dquote +:+ "%" +:+ Documented.text p +:+ dquote).
Proof.
  split; [|split; [|split; [|split]]].
  - intros op cmp s Hc. apply parseWhere_singleton.
    unfold Documented.template. destruct op; simplify_eq/=; reflexivity.
  - intros op cmp n Hc. apply parseWhere_singleton.
    unfold Documented.template. destruct op; simplify_eq/=; reflexivity.
  - intros op cmp b Hc. apply parseWhere_singleton.
    unfold Documented.template. destruct op; simplify_eq/=; reflexivity.
  - intros l. by apply parseWhere_singleton.
  - intros p. split; [|split]; by apply parseWhere_singleton.
Qed.

Lemma parseWhere_quoting_witness :
  parseWhere (Some [mkWhere "age" op_gte (VPrim (PNum 18))]) = "age >= 18".
Proof.
  apply (proj1 (proj2 (parseWhere_quoting "age")) op_gte ">=" 18).
  reflexivity.
Defined.

(** * Properties of the adapter *)

Ltac run_op :=
  unfold bind, try_catch, perform, read, emit, ret, throw,
    trace_of, outcome_of, world_of in *;
  simpl in *.

Section TraceLemmas.

Context {World Error : Type}.
Implicit Types (t : list (Event Error)) (P : Event Error -> Prop).

Lemma data_failures_app t1 t2 :
  data_failures (t1 ++ t2) = data_failures t1 ++ data_failures t2.
Proof. unfold data_failures. apply omap_app. Qed.

Lemma calls_of_app t1 t2 : calls_of (t1 ++ t2) = calls_of t1 ++ calls_of t2.
Proof. unfold calls_of. apply omap_app. Qed.

Lemma data_calls_app t1 t2 : data_calls (t1 ++ t2) = data_calls t1 ++ data_calls t2.
Proof. unfold data_calls. by rewrite calls_of_app, List.filter_app. Qed.

Lemma no_data_failures t : Forall no_data_event t -> data_failures t = [].
Proof.
  induction 1 as [|ev t Hev _ IH]; [reflexivity|].
  change (data_failures (ev :: t)) with (data_failures ([ev] ++ t)).
  rewrite data_failures_app, IH.
  destruct ev as [c [e|]| |]; simpl in *; [|done..].
  unfold data_failures. simpl. by rewrite Hev.
Qed.

Lemma no_data_calls t : Forall no_data_event t -> data_calls t = [].
Proof.
  induction 1 as [|ev t Hev _ IH]; [reflexivity|].
  change (data_calls (ev :: t)) with (data_calls ([ev] ++ t)).
  rewrite data_calls_app, IH.
  destruct ev as [c o| |]; simpl in *; [|done..].
  unfold data_calls. simpl. by rewrite Hev.
Qed.

Lemma session_no_data (ev : Event Error) :
  is_session_event ev -> no_data_event ev.
Proof. destruct ev as [[] ?| |]; simpl; done. Qed.

Lemma quiet_ret {A} P (a : A) : quiet (World := World) P (ret a).
Proof. intros w. constructor. Qed.

Lemma quiet_throw {A} P (e : Error) : quiet (A := A) (World := World) P (throw e).
Proof. intros w. constructor. Qed.

Lemma quiet_read {A} P (f : World -> A) : quiet P (read f).
Proof. intros w. constructor. Qed.

Lemma quiet_emit P ev : P ev -> quiet (World := World) P (emit ev).
Proof. intros H w. by repeat constructor. Qed.

Lemma quiet_perform {A} P c (f : World -> World * Outcome Error A) :
  (forall o, P (EvCall c o)) -> quiet P (perform c f).
Proof.
  intros H w. unfold perform, trace_of.
  destruct (f w) as [w1 [a|e]]; simpl; by repeat constructor.
Qed.

Lemma quiet_bind {A B} P (m : M World Error A) (k : A -> M World Error B) :
  quiet P m -> (forall a, quiet P (k a)) -> quiet P (bind m k).
Proof.
  intros Hm Hk w. specialize (Hm w). unfold bind, trace_of in *.
  destruct (m w) as [[w1 t1] [a|e]]; simpl in *; [|done].
  specialize (Hk a w1). destruct (k a w1) as [[w2 t2] r]; simpl in *.
  by apply Forall_app.
Qed.

Lemma quiet_try_catch {A} P (m : M World Error A) (h : Error -> M World Error A) :
  quiet P m -> (forall e, quiet P (h e)) -> quiet P (try_catch m h).
Proof.
  intros Hm Hh w. specialize (Hm w). unfold try_catch, trace_of in *.
  destruct (m w) as [[w1 t1] [a|e]]; simpl in *; [done|].
  specialize (Hh e w1). destruct (h e w1) as [[w2 t2] r]; simpl in *.
  by apply Forall_app.
Qed.

Lemma quiet_impl {A} P Q (m : M World Error A) :
  (forall ev, P ev -> Q ev) -> quiet P m -> quiet Q m.
Proof. intros HPQ Hm w. eapply Forall_impl; [apply Hm | done]. Qed.

(** Computations without calls on collections propagate vacuously. *)
Lemma quiet_propagates {A} (m : M World Error A) :
  quiet no_data_event m -> propagates m.
Proof. intros Hm w e He. rewrite (no_data_failures _ (Hm w)) in He. inv He. Qed.

Lemma propagates_perform {A} c (f : World -> World * Outcome Error A) :
  propagates (perform c f).
Proof.
  intros w e. unfold perform, trace_of, outcome_of, data_failures.
  destruct (f w) as [w1 [a|e']]; simpl; [inversion 1|].
  destruct (is_data_call c); simpl; [|inversion 1].
  by intros ->%list_elem_of_singleton.
Qed.

Lemma propagates_bind {A B} (m : M World Error A) (k : A -> M World Error B) :
  propagates m -> (forall a, propagates (k a)) -> propagates (bind m k).
Proof.
  intros Hm Hk w e. specialize (Hm w e). unfold bind, trace_of, outcome_of in *.
  destruct (m w) as [[w1 t1] [a|e']]; simpl in *;
    [|intros H; specialize (Hm H); by simplify_eq].
  specialize (Hk a w1 e). unfold trace_of, outcome_of in Hk.
  destruct (k a w1) as [[w2 t2] r]; simpl in *.
  rewrite data_failures_app. intros [H1|H2]%elem_of_app; [|by auto].
  by specialize (Hm H1).
Qed.

(** Below a prefix that calls no collection, a failure is the body's. *)
Lemma failure_after_quiet {A B} (pre : M World Error A) (k : M World Error B)
    (R : Error -> Outcome Error B) :
  quiet no_data_event pre ->
  (forall w e, e ∈ data_failures (trace_of (k w)) -> outcome_of (k w) = R e) ->
  forall w e, e ∈ data_failures (trace_of (bind pre (fun _ => k) w)) ->
              outcome_of (bind pre (fun _ => k) w) = R e.
Proof.
  intros Hpre Hk w e. specialize (Hpre w). unfold bind, trace_of, outcome_of in *.
  destruct (pre w) as [[w1 t1] [a|e']]; simpl in *.
  - specialize (Hk w1 e). destruct (k w1) as [[w2 t2] r]; simpl in *.
    by rewrite data_failures_app, (no_data_failures _ Hpre).
  - rewrite (no_data_failures _ Hpre). inversion 1.
Qed.

(** A failure inside [try] is answered by the handler. *)
Lemma failure_in_try {A} (body : M World Error A) (h : Error -> M World Error A)
    (R : Error -> Outcome Error A) :
  propagates body ->
  (forall e, quiet no_data_event (h e)) ->
  (forall e w, outcome_of (h e w) = R e) ->
  forall w e, e ∈ data_failures (trace_of (try_catch body h w)) ->
              outcome_of (try_catch body h w) = R e.
Proof.
  intros Hbody Hq Hh w e. specialize (Hbody w e).
  unfold try_catch, trace_of, outcome_of in *.
  destruct (body w) as [[w1 t1] [a|e']]; simpl in *.
  - intros He. by specialize (Hbody He).
  - specialize (Hq e' w1). specialize (Hh e' w1). unfold trace_of in Hq.
    destruct (h e' w1) as [[w2 t2] r]; simpl in *.
    rewrite data_failures_app, (no_data_failures _ Hq), app_nil_r.
    intros He. specialize (Hbody He). by simplify_eq.
Qed.

Lemma outcome_bind_ret {A B} (m : M World Error A) (f : A -> B) w :
  trace_of (bind m (fun a => ret (f a)) w) = trace_of (m w)
  /\ outcome_of (bind m (fun a => ret (f a)) w)
     = match outcome_of (m w) with
       | Returned a => Returned (f a)
       | Thrown e => Thrown e
       end.
Proof.
  run_op. destruct (m w) as [[w1 t1] [a|e]]; simpl; [|done].
  by rewrite app_nil_r.
Qed.

End TraceLemmas.

Section OperationLemmas.

Context {World Error : Type}.
Variable pb : PocketBase World Error.
Variable pbConfig : PbConfig.
Variable debugLogs : bool.
Variable getModelName : string -> string.

Abbreviation ensureAuth' := (ensureAuth pb pbConfig).

(** The bootstrap only ever logs in or writes the token. *)
Lemma ensureAuth_session : quiet is_session_event ensureAuth'.
Proof.
  intros w. unfold ensureAuth. destruct pbConfig as [|url email password tok].
  { constructor. }
  destruct (truthy_string tok) as [t|].
  { run_op. destruct (decide _); simpl; by repeat constructor. }
  destruct (truthy_string email) as [em|]; [|constructor].
  destruct (truthy_string password) as [pw|]; [|constructor].
  run_op. destruct (authStore_isValid pb w); [constructor|].
  destruct (collection_authWithPassword _ _ _ _ _) as [w1 [[]|e]];
    simpl; by repeat constructor.
Qed.

Lemma ensureAuth_no_data : quiet no_data_event ensureAuth'.
Proof. eapply quiet_impl; [apply session_no_data | apply ensureAuth_session]. Qed.

Section Quiet.

(** Events an operation may emit after the bootstrap all satisfy [P]. *)
Variable P : Event Error -> Prop.
Hypothesis P_data : forall c o, is_data_call c = true -> P (EvCall c o).
Hypothesis P_debug : forall method, P (EvDebugLog method).
Hypothesis P_console : forall message e, P (EvConsoleError message e).
Hypothesis P_bootstrap : quiet P ensureAuth'.

Lemma log_error_quiet message e :
  quiet (World := World) P (log_error debugLogs message e).
Proof.
  unfold log_error. destruct debugLogs; [by apply quiet_emit | apply quiet_ret].
Qed.

Lemma updateMany_loop_quiet collectionName update_ records count_ :
  quiet P (updateMany_loop pb collectionName update_ records count_).
Proof.
  revert count_. induction records as [|record rest IH]; intros count_; simpl.
  - apply quiet_ret.
  - apply quiet_bind; [|by intros _].
    apply quiet_perform. intros o. by apply P_data.
Qed.

Lemma deleteMany_loop_quiet collectionName records count_ :
  quiet P (deleteMany_loop pb collectionName records count_).
Proof.
  revert count_. induction records as [|record rest IH]; intros count_; simpl.
  - apply quiet_ret.
  - apply quiet_bind; [|by intros _].
    apply quiet_perform. intros o. by apply P_data.
Qed.

Ltac quiet_step :=
  first
    [ apply quiet_ret | apply quiet_throw | apply quiet_read
    | apply P_bootstrap | apply log_error_quiet
    | apply updateMany_loop_quiet | apply deleteMany_loop_quiet
    | apply quiet_emit; apply P_debug
    | apply quiet_perform; intros ?; by apply P_data
    | apply quiet_bind; [|intros ?]
    | apply quiet_try_catch; [|intros ?] ].

Lemma invoke_quiet req :
  quiet P (invoke pb pbConfig debugLogs getModelName req).
Proof.
  destruct req; unfold invoke, create, findOne, findMany, count, update,
    updateMany, delete_, deleteMany, debugLog, getList, pb_update, pb_delete;
    repeat quiet_step.
  - destruct (items _); repeat quiet_step.
  - destruct (items _); repeat quiet_step.
Qed.

End Quiet.

End OperationLemmas.

Section FailurePolicy.

Context {World Error : Type}.
Variable pb : PocketBase World Error.
Variable pbConfig : PbConfig.
Variable debugLogs : bool.
Variable getModelName : string -> string.

Lemma debugLog_no_data method :
  quiet (World := World) (Error := Error) no_data_event (debugLog method).
Proof. by apply quiet_emit. Qed.

Lemma log_error_no_data message (e : Error) :
  quiet (World := World) no_data_event (log_error debugLogs message e).
Proof. by apply log_error_quiet. Qed.

Lemma log_error_returns message (e : Error) (w : World) :
  outcome_of (log_error debugLogs message e w) = Returned tt
  /\ world_of (log_error debugLogs message e w) = w.
Proof. unfold log_error. by destruct debugLogs. Qed.

Lemma handler_outcome {A} message (k : M World Error A) R (e : Error) w :
  (forall w', outcome_of (k w') = R) ->
  outcome_of (bind (log_error debugLogs message e) (fun _ => k) w) = R.
Proof.
  intros Hk. unfold log_error. destruct debugLogs; run_op.
  - specialize (Hk w). by destruct (k w) as [[w2 t2] r].
  - specialize (Hk w). by destruct (k w) as [[w2 t2] r].
Qed.

Lemma updateMany_loop_propagates collectionName update_ records count_ :
  propagates (updateMany_loop pb collectionName update_ records count_).
Proof.
  revert count_. induction records as [|record rest IH]; intros count_; simpl.
  - apply quiet_propagates, quiet_ret.
  - apply propagates_bind; [apply propagates_perform | by intros _].
Qed.

Lemma deleteMany_loop_propagates collectionName records count_ :
  propagates (deleteMany_loop pb collectionName records count_).
Proof.
  revert count_. induction records as [|record rest IH]; intros count_; simpl.
  - apply quiet_propagates, quiet_ret.
  - apply propagates_bind; [apply propagates_perform | by intros _].
Qed.

Ltac propagates_step :=
  first
    [ apply propagates_perform
    | apply updateMany_loop_propagates | apply deleteMany_loop_propagates
    | apply quiet_propagates, quiet_ret
    | apply propagates_bind; [|intros ?] ].

(** The common frame of the operations: bootstrap, debug log, then a
    [try] whose handler logs and answers with [R]. *)
Ltac failure_frame R :=
  apply (failure_after_quiet _ _ R (ensureAuth_no_data pb pbConfig));
  apply (failure_after_quiet _ _ R (debugLog_no_data _));
  apply (failure_in_try _ _ R);
  [ repeat propagates_step
  | intros ?; try apply log_error_no_data;
    try (apply quiet_bind; [apply log_error_no_data | intros _; first [apply quiet_ret | apply quiet_throw]])
  | intros ? ?; try (apply handler_outcome; reflexivity) ].

Lemma create_failure data model w e :
  e ∈ data_failures (trace_of (create pb pbConfig debugLogs getModelName data model w)) ->
  outcome_of (create pb pbConfig debugLogs getModelName data model w) = Thrown e.
Proof. revert w e. unfold create. failure_frame (fun e : Error => @Thrown Error RecordModel e). Qed.

Lemma findOne_failure model where_ w e :
  e ∈ data_failures (trace_of (findOne pb pbConfig debugLogs getModelName model where_ w)) ->
  outcome_of (findOne pb pbConfig debugLogs getModelName model where_ w) = Returned None.
Proof.
  revert w e. unfold findOne, getList.
  failure_frame (fun _ : Error => @Returned Error (option RecordModel) None).
Qed.

Lemma findMany_failure model where_ limit offset sortBy w e :
  e ∈ data_failures (trace_of (findMany pb pbConfig debugLogs getModelName
                                 model where_ limit offset sortBy w)) ->
  outcome_of (findMany pb pbConfig debugLogs getModelName
                model where_ limit offset sortBy w) = Returned [].
Proof.
  revert w e. unfold findMany, getList.
  failure_frame (fun _ : Error => @Returned Error (list RecordModel) []).
Qed.

Lemma count_failure model where_ w e :
  e ∈ data_failures (trace_of (count pb pbConfig debugLogs getModelName model where_ w)) ->
  outcome_of (count pb pbConfig debugLogs getModelName model where_ w) = Returned 0.
Proof.
  revert w e. unfold count, getList.
  failure_frame (fun _ : Error => @Returned Error Z 0).
Qed.

Lemma update_failure model where_ update_ w e :
  e ∈ data_failures (trace_of (update pb pbConfig debugLogs getModelName
                                 model where_ update_ w)) ->
  outcome_of (update pb pbConfig debugLogs getModelName model where_ update_ w)
  = Returned None.
Proof.
  revert w e. unfold update, getList, pb_update.
  failure_frame (fun _ : Error => @Returned Error (option RecordModel) None).
  destruct (items _); repeat propagates_step.
Qed.

Lemma updateMany_failure model where_ update_ w e :
  e ∈ data_failures (trace_of (updateMany pb pbConfig debugLogs getModelName
                                 model where_ update_ w)) ->
  outcome_of (updateMany pb pbConfig debugLogs getModelName model where_ update_ w)
  = Returned 0.
Proof.
  revert w e. unfold updateMany, getList.
  failure_frame (fun _ : Error => @Returned Error Z 0).
Qed.

Lemma delete_failure model where_ w e :
  e ∈ data_failures (trace_of (delete_ pb pbConfig debugLogs getModelName model where_ w)) ->
  outcome_of (delete_ pb pbConfig debugLogs getModelName model where_ w) = Returned tt.
Proof.
  revert w e. unfold delete_, getList, pb_delete.
  failure_frame (fun _ : Error => @Returned Error unit tt).
  - destruct (items _); repeat propagates_step.
  - apply log_error_returns.
Qed.

Lemma deleteMany_failure model where_ w e :
  e ∈ data_failures (trace_of (deleteMany pb pbConfig debugLogs getModelName model where_ w)) ->
  outcome_of (deleteMany pb pbConfig debugLogs getModelName model where_ w) = Returned 0.
Proof.
  revert w e. unfold deleteMany, getList.
  failure_frame (fun _ : Error => @Returned Error Z 0).
Qed.

Lemma invoke_failure req w e :
  e ∈ data_failures (trace_of (invoke pb pbConfig debugLogs getModelName req w)) ->
  outcome_of (invoke pb pbConfig debugLogs getModelName req w)
  = Documented.on_failure req e.
Proof.
  destruct req; unfold invoke;
    match goal with
    | |- context [bind ?m (fun a => ret (@?f a))] =>
        destruct (outcome_bind_ret m f w) as [-> ->]
    end; intros He.
  - by rewrite (create_failure _ _ _ _ He).
  - by rewrite (findOne_failure _ _ _ _ He).
  - by rewrite (findMany_failure _ _ _ _ _ _ _ He).
  - by rewrite (count_failure _ _ _ _ He).
  - by rewrite (update_failure _ _ _ _ _ He).
  - by rewrite (updateMany_failure _ _ _ _ _ He).
  - by rewrite (delete_failure _ _ _ _ He).
  - by rewrite (deleteMany_failure _ _ _ _ He).
Qed.

End FailurePolicy.

Section Requests.

Context {World Error : Type}.
Variable pb : PocketBase World Error.
Variable pbConfig : PbConfig.
Variable debugLogs : bool.
Variable getModelName : string -> string.

Lemma findMany_page_documented limit offset :
  findMany_page limit offset = Documented.page limit offset.
Proof.
  unfold findMany_page, Documented.page. destruct offset as [o|]; [|done].
  destruct (decide (o = 0)) as [->|]; [|done]. by rewrite Zdiv_0_l.
Qed.

Lemma findMany_perPage_documented limit :
  findMany_perPage limit = Documented.pageSize limit.
Proof. reflexivity. Qed.

Lemma calls_of_no_auth (t : list (Event Error)) :
  Forall no_auth_event t ->
  Forall (fun c => is_auth_call c = false) (calls_of t).
Proof.
  induction 1 as [|ev t Hev _ IH]; [constructor|].
  change (calls_of (ev :: t)) with (calls_of ([ev] ++ t)).
  rewrite calls_of_app. apply Forall_app. split; [|done].
  destruct ev; simpl in *; by repeat constructor.
Qed.

Lemma data_call_no_auth c (o : option Error) :
  is_data_call c = true -> no_auth_event (EvCall c o).
Proof. by destruct c. Qed.


End Requests.

Section ThrowingCalls.

Context {World Error : Type}.
Variable pb : PocketBase World Error.

Lemma updateMany_loop_throws collectionName update_ records w e :
  patch_throws pb collectionName update_ records w e ->
  forall count_,
    outcome_of (updateMany_loop pb collectionName update_ records count_ w)
    = Thrown e.
Proof.
  induction 1 as [record rest w w' e Hcall
                 |record rest w w' updated e Hcall _ IH]; intros count_;
    simpl; unfold pb_update; run_op; rewrite Hcall; simpl; [done|].
  specialize (IH (count_ + 1)). run_op.
  by destruct (updateMany_loop _ _ _ _ _ _) as [[w2 t2] r].
Qed.

Lemma deleteMany_loop_throws collectionName records w e :
  deletion_throws pb collectionName records w e ->
  forall count_,
    outcome_of (deleteMany_loop pb collectionName records count_ w) = Thrown e.
Proof.
  induction 1 as [record rest w w' e Hcall
                 |record rest w w' deleted e Hcall _ IH]; intros count_;
    simpl; unfold pb_delete; run_op; rewrite Hcall; simpl; [done|].
  specialize (IH (count_ + 1)). run_op.
  by destruct (deleteMany_loop _ _ _ _ _) as [[w2 t2] r].
Qed.

(** The session calls of the bootstrap keep what they keep. *)
Lemma ensureAuth_keeps (Inv : World -> Prop) pbConfig :
  (forall tok w, Inv w -> Inv (authStore_save pb tok w)) ->
  (forall collection email password w,
      Inv w -> Inv (collection_authWithPassword pb collection email password w).1) ->
  preserves Inv (ensureAuth pb pbConfig).
Proof.
  intros Hsave Hlogin w Hw. unfold ensureAuth.
  destruct pbConfig as [|url email password tok]; [done|].
  destruct (truthy_string tok) as [t|].
  { run_op. destruct (decide _); simpl; [done | by apply Hsave]. }
  destruct (truthy_string email) as [em|]; [|done].
  destruct (truthy_string password) as [pw|]; [|done].
  run_op. destruct (authStore_isValid pb w); [done|].
  specialize (Hlogin "_superusers" em pw w Hw).
  by destruct (collection_authWithPassword _ _ _ _ _) as [w1 [[]|e]].
Qed.

End ThrowingCalls.

(** A case of the failure policy: run the operation up to the call that
    the hypotheses make throw. *)
Ltac policy_case Hauth :=
  intros;
  unfold create, findOne, findMany, count, update, updateMany, delete_,
    deleteMany, getList, pb_update, pb_delete, debugLog, log_error,
    or_undefined;
  rewrite ?findMany_page_documented, ?findMany_perPage_documented;
  run_op; rewrite Hauth; simpl;
  repeat match goal with
         | H : _ = (_, _) |- _ => rewrite H; simpl
         | H : items _ = _ |- _ => rewrite H; simpl
         end.

(** C3. After the bootstrap, when the backend throws [e] on the call an
    operation makes, [create] throws [e] itself, and every operation that
    works by filter resolves to its default instead: [findOne] to null,
    [findMany] to the empty array, [count] to 0, [update] to null (whether
    the list request or the patch throws), [updateMany] to 0 (whether the
    list request or the patch of any record throws), [delete] to
    undefined (whether the list request or the deletion throws) and
    [deleteMany] to 0 (whether the list request or the deletion of any
    record throws). *)
Theorem backend_failure_policy {World Error : Type}
    (pb : PocketBase World Error) (pbConfig : PbConfig) (debugLogs : bool)
    (getModelName : string -> string)
    (w w1 : World) (t1 : list (Event Error)) (e : Error) :
  ensureAuth pb pbConfig w = (w1, t1, Returned tt) ->
  (forall data model w2,
      collection_create pb (getModelName model) data w1 = (w2, Thrown e) ->
      outcome_of (create pb pbConfig debugLogs getModelName data model w)
      = Thrown e)
  /\ (forall model where_ w2,
        collection_getList pb (getModelName model) 1 1
          (mkListOptions (Some (parseWhere where_)) None) w1
        = (w2, Thrown e) ->
        outcome_of (findOne pb pbConfig debugLogs getModelName model where_ w)
        = Returned None)
  /\ (forall model where_ limit offset sortBy w2,
        collection_getList pb (getModelName model)
          (Documented.page limit offset) (Documented.pageSize limit)
          (mkListOptions
             (if decide (parseWhere where_ = EmptyString) then None
              else Some (parseWhere where_))
             (findMany_sort sortBy)) w1
        = (w2, Thrown e) ->
        outcome_of (findMany pb pbConfig debugLogs getModelName
                      model where_ limit offset sortBy w)
        = Returned [])
  /\ (forall model where_ w2,
        collection_getList pb (getModelName model) 1 1
          (mkListOptions
             (if decide (parseWhere where_ = EmptyString) then None
              else Some (parseWhere where_))
             None) w1
        = (w2, Thrown e) ->
        outcome_of (count pb pbConfig debugLogs getModelName model where_ w)
        = Returned 0)
  /\ (forall model where_ update_ w2,
        collection_getList pb (getModelName model) 1 1
          (mkListOptions (Some (parseWhere where_)) None) w1
        = (w2, Thrown e) ->
        outcome_of (update pb pbConfig debugLogs getModelName
                      model where_ update_ w)
        = Returned None)
  /\ (forall model where_ update_ w2 w3 result record rest,
        collection_getList pb (getModelName model) 1 1
          (mkListOptions (Some (parseWhere where_)) None) w1
        = (w2, Returned result) ->
        items result = record :: rest ->
        collection_update pb (getModelName model) (record_id record) update_ w2
        = (w3, Thrown e) ->
        outcome_of (update pb pbConfig debugLogs getModelName
                      model where_ update_ w)
        = Returned None)
  /\ (forall model where_ update_ w2,
        collection_getList pb (getModelName model) 1 500
          (mkListOptions
             (if decide (parseWhere where_ = EmptyString) then None
              else Some (parseWhere where_))
             None) w1
        = (w2, Thrown e) ->
        outcome_of (updateMany pb pbConfig debugLogs getModelName
                      model where_ update_ w)
        = Returned 0)
  /\ (forall model where_ update_ w2 result,
        collection_getList pb (getModelName model) 1 500
          (mkListOptions
             (if decide (parseWhere where_ = EmptyString) then None
              else Some (parseWhere where_))
             None) w1
        = (w2, Returned result) ->
        patch_throws pb (getModelName model) update_ (items result) w2 e ->
        outcome_of (updateMany pb pbConfig debugLogs getModelName
                      model where_ update_ w)
        = Returned 0)
  /\ (forall model where_ w2,
        collection_getList pb (getModelName model) 1 1
          (mkListOptions (Some (parseWhere where_)) None) w1
        = (w2, Thrown e) ->
        outcome_of (delete_ pb pbConfig debugLogs getModelName model where_ w)
        = Returned tt)
  /\ (forall model where_ w2 w3 result record rest,
        collection_getList pb (getModelName model) 1 1
          (mkListOptions (Some (parseWhere where_)) None) w1
        = (w2, Returned result) ->
        items result = record :: rest ->
        collection_delete pb (getModelName model) (record_id record) w2
        = (w3, Thrown e) ->
        outcome_of (delete_ pb pbConfig debugLogs getModelName model where_ w)
        = Returned tt)
  /\ (forall model where_ w2,
        collection_getList pb (getModelName model) 1 500
          (mkListOptions
             (if decide (parseWhere where_ = EmptyString) then None
              else Some (parseWhere where_))
             None) w1
        = (w2, Thrown e) ->
        outcome_of (deleteMany pb pbConfig debugLogs getModelName model where_ w)
        = Returned 0)
  /\ (forall model where_ w2 result,
        collection_getList pb (getModelName model) 1 500
          (mkListOptions
             (if decide (parseWhere where_ = EmptyString) then None
              else Some (parseWhere where_))
             None) w1
        = (w2, Returned result) ->
        deletion_throws pb (getModelName model) (items result) w2 e ->
        outcome_of (deleteMany pb pbConfig debugLogs getModelName model where_ w)
        = Returned 0).
Proof.
  intros Hauth.
  repeat match goal with |- _ /\ _ => split end.
  - policy_case Hauth. by destruct debugLogs.
  - policy_case Hauth. by destruct debugLogs.
  - policy_case Hauth. by destruct debugLogs.
  - policy_case Hauth. by destruct debugLogs.
  - policy_case Hauth. by destruct debugLogs.
  - policy_case Hauth. by destruct debugLogs.
  - policy_case Hauth. by destruct debugLogs.
  - intros model where_ update_ w2 result Hlist Hthrows.
    pose proof (updateMany_loop_throws pb _ _ _ _ _ Hthrows 0) as Hloop.
    policy_case Hauth. run_op.
    destruct (updateMany_loop _ _ _ _ _ _) as [[w3 t3] r]; simpl in *.
    subst r. by destruct debugLogs.
  - policy_case Hauth. by destruct debugLogs.
  - policy_case Hauth. by destruct debugLogs.
  - policy_case Hauth. by destruct debugLogs.
  - intros model where_ w2 result Hlist Hthrows.
    pose proof (deleteMany_loop_throws pb _ _ _ _ Hthrows 0) as Hloop.
    policy_case Hauth. run_op.
    destruct (deleteMany_loop _ _ _ _ _) as [[w3 t3] r]; simpl in *.
    subst r. by destruct debugLogs.
Qed.

Lemma backend_failure_policy_witness :
  outcome_of (create Mock.pb PbInstance true Mock.getModelName
                Mock.alice "user" Mock.down)
  = Thrown "ClientResponseError 0"
  /\ outcome_of (count Mock.pb PbInstance true Mock.getModelName "user"
                  (Some [mkWhere "name" op_eq (VPrim (PStr "bob"))]) Mock.down)
     = Returned 0
  /\ outcome_of (updateMany (Protecting.pb Protecting.r2) PbInstance true
                  Mock.getModelName "user" None
                  {[ "name" := VPrim (PStr "carol") ]} Mock.up)
     = Returned 0.
Proof.
  split; [|split].
  - apply (proj1 (backend_failure_policy Mock.pb PbInstance true
                    Mock.getModelName Mock.down Mock.down []
                    "ClientResponseError 0" eq_refl)
             Mock.alice "user" Mock.down).
    reflexivity.
  - apply (proj1 (proj2 (proj2 (proj2 (backend_failure_policy Mock.pb
                    PbInstance true Mock.getModelName Mock.down Mock.down []
                    "ClientResponseError 0" eq_refl))))
             "user" (Some [mkWhere "name" op_eq (VPrim (PStr "bob"))])
             Mock.down).
    reflexivity.
  - apply (proj1 (proj2 (proj2 (proj2 (proj2 (proj2 (proj2 (proj2
             (backend_failure_policy (Protecting.pb Protecting.r2) PbInstance
                true Mock.getModelName Mock.up Mock.up []
                "ClientResponseError 403" eq_refl))))))))
             "user" None {[ "name" := VPrim (PStr "carol") ]} Mock.up
             (mkListResult (Mock.rows Mock.up) 2)).
    + reflexivity.
    + eapply patch_throws_later; [reflexivity|].
      eapply patch_throws_here. reflexivity.
Defined.

(** The policy is about calls on collections: a login that fails in the
    bootstrap is outside every [try] and reaches the caller. *)
Example login_failure_reaches_caller :
  outcome_of (findOne Mock.pb
                (PbParams "http://127.0.0.1:8090" (Some "admin@example.com")
                          (Some "password") None)
                false Mock.getModelName "user" None Mock.down)
  = Thrown "ClientResponseError 0".
Proof. reflexivity. Qed.


(** C7. [count] makes one list request, for page 1 of size 1 with the
    compiled filter (the filter key is left undefined when the compiled
    filter is the empty string), and resolves to the [totalItems] the
    backend reports, whatever the page holds; it resolves to 0 when the
    request throws. *)
Theorem count_returns_totalItems {World Error : Type}
    (pb : PocketBase World Error) (pbConfig : PbConfig) (debugLogs : bool)
    (getModelName : string -> string)
    (model : string) (where_ : option (list Where))
    (w w1 : World) (t1 : list (Event Error)) :
  ensureAuth pb pbConfig w = (w1, t1, Returned tt) ->
  let options :=
    mkListOptions
      (if decide (parseWhere where_ = EmptyString) then None
       else Some (parseWhere where_))
      None in
  data_calls (trace_of (count pb pbConfig debugLogs getModelName model where_ w))
  = [CollGetList (getModelName model) 1 1 options]
  /\ outcome_of (count pb pbConfig debugLogs getModelName model where_ w)
     = match snd (collection_getList pb (getModelName model) 1 1 options w1) with
       | Returned result => Returned (totalItems result)
       | Thrown _ => Returned 0
       end.
Proof.
  intros Hauth options.
  pose proof (no_data_calls _ (ensureAuth_no_data pb pbConfig w)) as Hpre.
  unfold count, getList, debugLog, log_error, or_undefined. run_op.
  rewrite Hauth in *. simpl in *. fold options.
  destruct (collection_getList _ _ _ _ _ _) as [w2 [res|e]]; simpl;
    destruct debugLogs; simpl; by rewrite data_calls_app, Hpre.
Qed.

Lemma count_returns_totalItems_witness :
  length (Mock.page_of 1 1 (Mock.rows Mock.up)) = 1%nat
  /\ data_calls (trace_of (count Mock.pb PbInstance false Mock.getModelName
                             "user"
                             (Some [mkWhere "name" op_eq (VPrim (PStr "bob"))])
                             Mock.up))
     = [CollGetList "user" 1 1
          (mkListOptions (Some ("name = " +:+ dquote +:+ "bob" +:+ dquote))
                         None)]
  /\ outcome_of (count Mock.pb PbInstance false Mock.getModelName "user"
                  (Some [mkWhere "name" op_eq (VPrim (PStr "bob"))]) Mock.up)
     = Returned 2.
Proof.
  split; [reflexivity|].
  exact (count_returns_totalItems Mock.pb PbInstance false Mock.getModelName
           "user" (Some [mkWhere "name" op_eq (VPrim (PStr "bob"))])
           Mock.up Mock.up [] eq_refl).
Defined.

(** C8. When the list request of [update] comes back with no record,
    [update] resolves to null and makes no call that writes records, so
    the backend is as the list request left it: whatever the session
    calls of the bootstrap and the list requests keep of the backend,
    its records among it, is kept by the call. *)
Theorem update_without_match {World Error : Type}
    (pb : PocketBase World Error) (pbConfig : PbConfig) (debugLogs : bool)
    (getModelName : string -> string)
    (model : string) (where_ : option (list Where)) (update_ : RecordModel)
    (w w1 w2 : World) (t1 : list (Event Error)) (result : ListResult) :
  ensureAuth pb pbConfig w = (w1, t1, Returned tt) ->
  collection_getList pb (getModelName model) 1 1
    (mkListOptions (Some (parseWhere where_)) None) w1
  = (w2, Returned result) ->
  items result = [] ->
  outcome_of (update pb pbConfig debugLogs getModelName model where_ update_ w)
  = Returned None
  /\ Forall (fun c => is_write_call c = false)
       (calls_of (trace_of (update pb pbConfig debugLogs getModelName
                              model where_ update_ w)))
  /\ world_of (update pb pbConfig debugLogs getModelName model where_ update_ w)
     = w2
  /\ (forall Inv : World -> Prop,
        (forall tok w', Inv w' -> Inv (authStore_save pb tok w')) ->
        (forall collection email password w',
            Inv w' ->
            Inv (collection_authWithPassword pb collection email password w').1) ->
        (forall collection page perPage options w',
            Inv w' ->
            Inv (collection_getList pb collection page perPage options w').1) ->
        Inv w ->
        Inv (world_of (update pb pbConfig debugLogs getModelName
                         model where_ update_ w))).
Proof.
  intros Hauth Hlist Hnone.
  pose proof (ensureAuth_session pb pbConfig w) as Hpre.
  assert (world_of (update pb pbConfig debugLogs getModelName
                      model where_ update_ w) = w2) as Hworld.
  { unfold update, getList, debugLog. run_op. rewrite Hauth. simpl.
    rewrite Hlist. simpl. by rewrite Hnone. }
  split; [|split; [|split; [exact Hworld|]]].
  - unfold update, getList, debugLog. run_op. rewrite Hauth. simpl.
    rewrite Hlist. simpl. by rewrite Hnone.
  - unfold update, getList, debugLog. run_op. rewrite Hauth in *. simpl in *.
    rewrite Hlist. simpl. rewrite Hnone. simpl.
    rewrite calls_of_app. apply Forall_app. split; [|by repeat constructor].
    clear Hauth. induction Hpre as [|ev t Hev _ IH]; [constructor|].
    change (calls_of (ev :: t)) with (calls_of ([ev] ++ t)).
    rewrite calls_of_app. apply Forall_app. split; [|done].
    destruct ev as [[] ?| |]; simpl in *; by repeat constructor.
  - intros Inv Hsave Hlogin Hread Hw. rewrite Hworld.
    pose proof (ensureAuth_keeps pb Inv pbConfig Hsave Hlogin w Hw) as H1.
    unfold world_of in H1. rewrite Hauth in H1. simpl in H1.
    specialize (Hread (getModelName model) 1 1
                  (mkListOptions (Some (parseWhere where_)) None) w1 H1).
    by rewrite Hlist in Hread.
Qed.

Lemma update_without_match_witness :
  outcome_of (update Mock.pb
                (PbParams "http://127.0.0.1:8090" None None (Some "jwt"))
                false Mock.getModelName "user"
                (Some [mkWhere "name" op_eq (VPrim (PStr "zoe"))])
                {[ "name" := VPrim (PStr "carol") ]} Mock.empty)
  = Returned None
  /\ Mock.rows (world_of (update Mock.pb
                  (PbParams "http://127.0.0.1:8090" None None (Some "jwt"))
                  false Mock.getModelName "user"
                  (Some [mkWhere "name" op_eq (VPrim (PStr "zoe"))])
                  {[ "name" := VPrim (PStr "carol") ]} Mock.empty))
     = Mock.rows Mock.empty.
Proof.
  pose proof (update_without_match Mock.pb
                (PbParams "http://127.0.0.1:8090" None None (Some "jwt"))
                false Mock.getModelName
                "user" (Some [mkWhere "name" op_eq (VPrim (PStr "zoe"))])
                {[ "name" := VPrim (PStr "carol") ]}
                Mock.empty (Mock.mkWorld [] true "jwt" true)
                (Mock.mkWorld [] true "jwt" true)
                [EvCall (AuthStoreSave "jwt") None] (mkListResult [] 0)
                eq_refl eq_refl eq_refl) as (Hout & _ & _ & Hframe).
  split; [exact Hout|].
  apply (Hframe (fun w' => Mock.rows w' = Mock.rows Mock.empty)).
  - intros tok w' Hw'. exact Hw'.
  - intros collection email password w' Hw'.
    unfold Mock.pb, Mock.guard. simpl. by destruct (Mock.online w').
  - intros collection page perPage options w' Hw'.
    unfold Mock.pb, Mock.guard. simpl. by destruct (Mock.online w').
  - reflexivity.
Defined.

(** C9. With an adapter built on a live PocketBase instance the session
    bootstrap does nothing, and whatever requests are made and in
    whatever order, no login call and no token write is ever made. *)
Theorem live_instance_never_authenticates {World Error : Type}
    (pb : PocketBase World Error) (debugLogs : bool)
    (getModelName : string -> string) :
  (forall w, ensureAuth pb PbInstance w = (w, [], Returned tt))
  /\ (forall (reqs : list Request) (w : World),
        Forall (fun c => is_auth_call c = false)
          (calls_of (snd (run_requests pb PbInstance debugLogs getModelName
                            reqs w)))).
Proof.
  split; [reflexivity|].
  intros reqs. induction reqs as [|req rest IH]; intros w; simpl.
  { constructor. }
  pose proof (invoke_quiet pb PbInstance debugLogs getModelName no_auth_event
                data_call_no_auth (fun _ => I) (fun _ _ => I)
                (quiet_ret _ tt) req w) as Hreq.
  unfold trace_of in Hreq.
  destruct (invoke _ _ _ _ req w) as [[w1 t1] r]; simpl in *.
  specialize (IH w1). destruct (run_requests _ _ _ _ rest w1) as [w2 t2]; simpl in *.
  rewrite calls_of_app. apply Forall_app. split; [by apply calls_of_no_auth | done].
Qed.


(** * Further properties of the filter compiler *)

Lemma append_cons (ch : ascii) (a b : string) :
  String ch a +:+ b = String ch (a +:+ b).
Proof. reflexivity. Qed.

Lemma append_assoc (a b c : string) : (a +:+ b) +:+ c = a +:+ b +:+ c.
Proof.
  induction a as [|ch a IH]; [reflexivity|].
  by rewrite !append_cons, IH.
Qed.

Lemma append_nonempty_r (a b : string) :
  b <> EmptyString -> a +:+ b <> EmptyString.
Proof. destruct a; [done|]. by rewrite append_cons. Qed.

Lemma append_nonempty_l (a b : string) :
  a <> EmptyString -> a +:+ b <> EmptyString.
Proof. destruct a; [done|]. by rewrite append_cons. Qed.

Lemma rendered_cases (item : Where) :
  (skipped item = true /\ rendered item = [])
  \/ (skipped item = false
      /\ exists t, rendered item = [t] /\ t <> EmptyString).
Proof.
  destruct item as [f op v]. unfold rendered, skipped, parseWhere_step.
  destruct op, v; simpl;
    first [ by left
          | right; split; [done|]; eexists; split; [reflexivity|];
            by apply append_nonempty_r ].
Qed.

Lemma rendered_all_nonempty (items : list Where) :
  Forall (fun t => t <> EmptyString) (flat_map rendered items).
Proof.
  induction items as [|item items IH]; simpl; [constructor|].
  apply Forall_app. split; [|done].
  destruct (rendered_cases item) as [[_ ->]|[_ (t & -> & Ht)]];
    by repeat constructor.
Qed.

Lemma rendered_none (items : list Where) :
  flat_map rendered items = [] <-> Forall (fun item => skipped item = true) items.
Proof.
  induction items as [|item items IH]; simpl.
  { split; [constructor | done]. }
  destruct (rendered_cases item) as [[Hs ->]|[Hs (t & -> & Ht)]]; simpl.
  - rewrite IH. split; [by constructor | by inversion 1].
  - split; [done|]. inversion 1; congruence.
Qed.

Lemma concat_empty (sep : string) (l : list string) :
  Forall (fun t => t <> EmptyString) l ->
  String.concat sep l = EmptyString -> l = [].
Proof.
  destruct 1 as [|t l Ht Hl]; [done|]. simpl.
  destruct l; [done|]. intros H. by apply append_nonempty_l in H.
Qed.

Lemma concat_app (sep : string) (l1 l2 : list string) :
  l1 <> [] -> l2 <> [] ->
  String.concat sep (l1 ++ l2)
  = String.concat sep l1 +:+ sep +:+ String.concat sep l2.
Proof.
  intros H1 H2. induction l1 as [|t l1 IH]; [done|].
  destruct l1 as [|t' l1].
  - simpl. by destruct l2.
  - change (String.concat sep ((t :: t' :: l1) ++ l2))
      with (t +:+ sep +:+ String.concat sep ((t' :: l1) ++ l2)).
    rewrite IH by done.
    change (String.concat sep (t :: t' :: l1))
      with (t +:+ sep +:+ String.concat sep (t' :: l1)).
    by rewrite !append_assoc.
Qed.

Lemma parseWhere_empty_iff (items : list Where) :
  parseWhere (Some items) = EmptyString
  <-> Forall (fun item => skipped item = true) items.
Proof.
  rewrite parseWhere_join, <- rendered_none. unfold JS.Array_join. split.
  - apply concat_empty, rendered_all_nonempty.
  - by intros ->.
Qed.

(** X1. A non-empty list compiles to the empty filter exactly when every
    condition in it is skipped, that is, is an [in] on a value that is
    not an array. *)
Theorem parseWhere_empty_iff_skipped (items : list Where) :
  parseWhere (Some items) = EmptyString
  <-> Forall (fun item => skipped item = true) items.
Proof. exact (parseWhere_empty_iff items). Qed.

(** X2. Compiling a concatenation is the conjunction of the compiled
    parts: the two filters joined with [ && ], or the other one when one
    of them is empty. *)
Theorem parseWhere_app (xs ys : list Where) :
  parseWhere (Some (xs ++ ys))
  = and_filters (parseWhere (Some xs)) (parseWhere (Some ys)).
Proof.
  rewrite !parseWhere_join, flat_map_app. unfold JS.Array_join, and_filters.
  pose proof (rendered_all_nonempty xs) as Hx.
  pose proof (rendered_all_nonempty ys) as Hy.
  destruct (decide (String.concat " && " (flat_map rendered xs) = EmptyString))
    as [Ex|Ex].
  { by rewrite (concat_empty _ _ Hx Ex). }
  destruct (decide (String.concat " && " (flat_map rendered ys) = EmptyString))
    as [Ey|Ey].
  { by rewrite (concat_empty _ _ Hy Ey), app_nil_r. }
  apply concat_app; intros E; [apply Ex | apply Ey]; by rewrite E.
Qed.

(** X3. An array under an operator other than [in] is not rendered as a
    list: its elements are put together with bare commas, strings
    unquoted, with neither brackets nor spaces, after the comparator or
    inside the quotes of the pattern. *)
Theorem parseWhere_array_outside_in (f : string) (l : list Primitive) :
  let elements := String.concat "," (Documented.text <$> l) in
  (forall op cmp,
      Documented.comparator op = Some cmp ->
      parseWhere (Some [mkWhere f op (VArr l)])
      = f +:+ " " +:+ cmp +:+ " " +:+ elements)
  /\ parseWhere (Some [mkWhere f op_contains (VArr l)])
     = f +:+ " ~ " +:+ dquote +:+ elements +:+ dquote
  /\ parseWhere (Some [mkWhere f op_starts_with (VArr l)])
     = f +:+ " ~ " +:+ dquote +:+ elements +:+ "%" +:+ dquote
  /\ parseWhere (Some [mkWhere f op_ends_with (VArr l)])
     = f +:+ " ~ " +:+ dquote +:+ "%" +:+ elements +:+ dquote.
Proof.
  assert (JS.ToString_prim <$> l = Documented.text <$> l) as Htext.
  { apply list_fmap_ext. intros _ p _. apply text_ToString_prim. }
  intros elements. subst elements. rewrite <- Htext.
  split; [|by repeat split].
  intros op cmp Hc. destruct op; simplify_eq/=; reflexivity.
Qed.

Lemma parseWhere_array_outside_in_witness :
  parseWhere (Some [mkWhere "id" op_eq (VArr [PStr "a"; PStr "b"; PNum 3])])
  = "id = a,b,3".
Proof.
  apply (proj1 (parseWhere_array_outside_in "id" [PStr "a"; PStr "b"; PNum 3])
           op_eq "=").
  reflexivity.
Defined.

(** * Further properties of the adapter *)

(** X4. For an integer offset from 0 to below 2^53 and an integer page
    size from 1 to below 2^53, the range in which the source's
    floating-point division, floor and increment are exact on integers,
    the page [findMany] asks for is at least 1 and at most 2^53 and is
    the page that holds the record at the offset; it starts at the offset
    only when the page size divides the offset. *)
Theorem findMany_page_window (limit : option Z) (o : Z) :
  0 <= o < 2 ^ 53 ->
  0 < findMany_perPage limit < 2 ^ 53 ->
  let p := findMany_page limit (Some o) in
  let s := findMany_perPage limit in
  1 <= p <= 2 ^ 53
  /\ (p - 1) * s <= o < p * s
  /\ ((p - 1) * s = o <-> o `mod` s = 0).
Proof.
  intros Ho Hs p s. subst p. rewrite findMany_page_documented.
  unfold Documented.page. rewrite <- findMany_perPage_documented. fold s.
  fold s in Hs.
  pose proof (Z.div_mod o s ltac:(lia)) as Hdm.
  pose proof (Z.mod_pos_bound o s ltac:(lia)) as Hm.
  assert (0 <= o `div` s) by (apply Z.div_pos; lia).
  assert (o `div` s <= o) by (apply Z.div_le_upper_bound; nia).
  repeat split; nia.
Qed.

Lemma findMany_page_window_witness :
  1 <= findMany_page (Some 50) (Some 125) <= 2 ^ 53
  /\ (findMany_page (Some 50) (Some 125) - 1) * 50 <= 125
      < findMany_page (Some 50) (Some 125) * 50
  /\ ((findMany_page (Some 50) (Some 125) - 1) * 50 = 125 <-> 125 `mod` 50 = 0).
Proof.
  apply (findMany_page_window (Some 50) 125); split; try lia; reflexivity.
Defined.

Section Bootstrap.

Context {World Error : Type}.
Variable pb : PocketBase World Error.

Lemma truthy_string_Some (o : option string) (s : string) :
  truthy_string o = Some s -> o = Some s /\ s <> EmptyString.
Proof.
  destruct o as [s'|]; simpl; [|done].
  destruct (decide (s' = EmptyString)); [done|]. by intros [= <-].
Qed.

(** X5. A token that is supplied and not empty is preferred to the
    credentials, whatever they are: the bootstrap then never throws, the
    only call it can make is the write of that token, and it does nothing
    at all when the handle already holds the token. *)
Theorem ensureAuth_token_preferred
    (url tok : string) (adminEmail adminPassword token : option string)
    (w : World) :
  truthy_string token = Some tok ->
  let run := ensureAuth pb (PbParams url adminEmail adminPassword token) w in
  outcome_of run = Returned tt
  /\ Forall (fun c => c = AuthStoreSave tok) (calls_of (trace_of run))
  /\ (authStore_token pb w = tok -> run = (w, [], Returned tt))
  /\ (authStore_token pb w <> tok -> world_of run = authStore_save pb tok w).
Proof.
  intros Htok run. subst run. unfold ensureAuth. rewrite Htok. run_op.
  destruct (decide (authStore_token pb w = tok)); simpl;
    repeat split; try done; by repeat constructor.
Qed.

(** X6. The bootstrap logs in only when it has to: a login call in its
    trace means that no usable token was supplied, that both credentials
    are present and not empty, and that the handle reported its session
    as not valid; the login is the one of the [_superusers] collection
    with exactly those credentials. *)
Theorem ensureAuth_login_conditions
    (url : string) (adminEmail adminPassword token : option string)
    (w : World) (collection email password : string) :
  AuthWithPassword collection email password
    ∈ calls_of (trace_of (ensureAuth pb (PbParams url adminEmail adminPassword token) w)) ->
  truthy_string token = None
  /\ adminEmail = Some email /\ email <> EmptyString
  /\ adminPassword = Some password /\ password <> EmptyString
  /\ authStore_isValid pb w = false
  /\ collection = "_superusers".
Proof.
  unfold ensureAuth. destruct (truthy_string token) as [tok|] eqn:Htok.
  { run_op. destruct (decide _); simpl; [by inversion 1|].
    intros Hin%list_elem_of_singleton. discriminate. }
  destruct (truthy_string adminEmail) as [em|] eqn:Hem; [|by inversion 1].
  destruct (truthy_string adminPassword) as [pw|] eqn:Hpw; [|by inversion 1].
  apply truthy_string_Some in Hem as [-> ?], Hpw as [-> ?].
  run_op. destruct (authStore_isValid pb w) eqn:Hvalid; [by inversion 1|].
  destruct (collection_authWithPassword _ _ _ _ _) as [w1 [[]|e]]; simpl;
    intros Hin%list_elem_of_singleton; by simplify_eq.
Qed.

(** X7. With a client that keeps the token it is given and whose session
    is valid after a login, a bootstrap that has passed once does nothing
    the next time: no call and no change. *)
Theorem ensureAuth_settles (pbConfig : PbConfig) (w : World) :
  (forall tok w', authStore_token pb (authStore_save pb tok w') = tok) ->
  (forall collection email password w' w'',
      collection_authWithPassword pb collection email password w'
      = (w'', Returned tt) ->
      authStore_isValid pb w'' = true) ->
  outcome_of (ensureAuth pb pbConfig w) = Returned tt ->
  ensureAuth pb pbConfig (world_of (ensureAuth pb pbConfig w))
  = (world_of (ensureAuth pb pbConfig w), [], Returned tt).
Proof.
  intros Hsave Hlogin. unfold ensureAuth.
  destruct pbConfig as [|url adminEmail adminPassword token]; [done|].
  destruct (truthy_string token) as [tok|].
  { run_op. destruct (decide (authStore_token pb w = tok)) as [Heq|Hne]; simpl.
    - intros _. by rewrite decide_True.
    - intros _. by rewrite decide_True. }
  destruct (truthy_string adminEmail) as [em|]; [|done].
  destruct (truthy_string adminPassword) as [pw|]; [|done].
  run_op. destruct (authStore_isValid pb w) eqn:Hvalid; simpl.
  { intros _. by rewrite Hvalid. }
  destruct (collection_authWithPassword _ _ _ _ _) as [w1 [[]|e]] eqn:Hcall;
    simpl; [|done].
  intros _. by rewrite (Hlogin _ _ _ _ _ Hcall).
Qed.

End Bootstrap.

Lemma ensureAuth_token_preferred_witness :
  outcome_of (ensureAuth Mock.pb
                (PbParams "http://127.0.0.1:8090" (Some "admin@example.com")
                          (Some "password") (Some "jwt"))
                Mock.down)
  = Returned tt.
Proof.
  apply (ensureAuth_token_preferred Mock.pb "http://127.0.0.1:8090" "jwt"
           (Some "admin@example.com") (Some "password") (Some "jwt") Mock.down).
  reflexivity.
Defined.

Lemma ensureAuth_login_conditions_witness :
  truthy_string None = None
  /\ Some "admin@example.com" = Some "admin@example.com"
  /\ "admin@example.com" <> EmptyString
  /\ Some "password" = Some "password"
  /\ "password" <> EmptyString
  /\ authStore_isValid Mock.pb Mock.up = false
  /\ "_superusers" = "_superusers".
Proof.
  apply (ensureAuth_login_conditions Mock.pb "http://127.0.0.1:8090"
           (Some "admin@example.com") (Some "password") None Mock.up
           "_superusers" "admin@example.com" "password").
  vm_compute. constructor.
Defined.

Lemma ensureAuth_settles_witness :
  trace_of (ensureAuth Mock.pb
              (PbParams "http://127.0.0.1:8090" (Some "admin@example.com")
                        (Some "password") None)
              (world_of (ensureAuth Mock.pb
                           (PbParams "http://127.0.0.1:8090"
                                     (Some "admin@example.com")
                                     (Some "password") None)
                           Mock.up)))
  = [].
Proof.
  rewrite (ensureAuth_settles Mock.pb
             (PbParams "http://127.0.0.1:8090" (Some "admin@example.com")
                       (Some "password") None) Mock.up).
  - reflexivity.
  - reflexivity.
  - intros collection email password w' w''. unfold Mock.pb, Mock.guard. simpl.
    destruct (Mock.online w'); by intros [= <-].
  - reflexivity.
Defined.

Section Frame.

Context {World Error : Type}.
Variable pb : PocketBase World Error.
Variable pbConfig : PbConfig.
Variable debugLogs : bool.
Variable getModelName : string -> string.

Lemma bind_thrown {A B} (m : M World Error A) (k : A -> M World Error B) w e :
  outcome_of (m w) = Thrown e ->
  bind m k w = (world_of (m w), trace_of (m w), Thrown e).
Proof. run_op. destruct (m w) as [[w1 t1] [a|e']]; simpl; [done|]. by intros [= ->]. Qed.

(** The frame shared by the operations returns whenever the bootstrap
    does and the handler of the [try] does. *)
Lemma frame_returns {A} (pre : M World Error unit) (method : string)
    (body : M World Error A) (h : Error -> M World Error A) w :
  (exists x, outcome_of (pre w) = Returned x) ->
  (forall e w', exists a, outcome_of (h e w') = Returned a) ->
  exists a, outcome_of (bind pre (fun _ => bind (debugLog method)
                                   (fun _ => try_catch body h)) w)
            = Returned a.
Proof.
  intros [x Hpre] Hh. unfold debugLog. run_op.
  destruct (pre w) as [[w1 t1] [x'|e]]; simpl in *; [|done].
  destruct (body w1) as [[w2 t2] [a|e]]; simpl; [by eexists|].
  destruct (Hh e w2) as [a Ha]. destruct (h e w2) as [[w3 t3] r]; simpl in *.
  subst r. by eexists.
Qed.

Lemma handler_returns {A} message (a : A) (e : Error) (w : World) :
  exists a', outcome_of (bind (log_error debugLogs message e)
                           (fun _ => ret a) w) = Returned a'.
Proof. exists a. by apply handler_outcome. Qed.

Lemma invoke_bootstrap_thrown req w e :
  outcome_of (ensureAuth pb pbConfig w) = Thrown e ->
  invoke pb pbConfig debugLogs getModelName req w
  = (world_of (ensureAuth pb pbConfig w), trace_of (ensureAuth pb pbConfig w),
     Thrown e).
Proof.
  intros He.
  destruct req; unfold invoke, create, findOne, findMany, count, update,
    updateMany, delete_, deleteMany;
    rewrite (bind_thrown _ _ w e); try done;
      by rewrite (bind_thrown _ _ w e).
Qed.

Lemma invoke_returns req w :
  is_create req = false ->
  (exists x, outcome_of (ensureAuth pb pbConfig w) = Returned x) ->
  exists r, outcome_of (invoke pb pbConfig debugLogs getModelName req w)
            = Returned r.
Proof.
  intros Hreq Hpre. destruct req; try discriminate; unfold invoke;
    match goal with
    | |- context [bind ?m (fun a => ret (@?f a))] =>
        destruct (outcome_bind_ret m f w) as [_ ->];
        lazymatch m with
        | findOne _ _ _ _ _ _ => unfold findOne
        | findMany _ _ _ _ _ _ _ _ _ => unfold findMany
        | count _ _ _ _ _ _ => unfold count
        | update _ _ _ _ _ _ _ => unfold update
        | updateMany _ _ _ _ _ _ _ => unfold updateMany
        | delete_ _ _ _ _ _ _ => unfold delete_
        | deleteMany _ _ _ _ _ _ => unfold deleteMany
        end
    end; cbv zeta;
    match goal with
    | |- context [outcome_of (bind ?pre (fun _ => bind (debugLog ?s)
                                           (fun _ => try_catch ?body ?h)) w)] =>
        destruct (frame_returns pre s body h w Hpre) as [a ->];
        [ intros e w'; first [apply handler_returns
                             | exists tt; apply log_error_returns]
        | by eexists ]
    end.
Qed.

End Frame.

(** X8. A bootstrap that throws stops every operation before its body:
    the operation throws the same error, makes no call on a collection
    and leaves the backend as the bootstrap left it. *)
Theorem bootstrap_failure_reaches_caller {World Error : Type}
    (pb : PocketBase World Error) (pbConfig : PbConfig) (debugLogs : bool)
    (getModelName : string -> string) (req : Request) (w : World) (e : Error) :
  outcome_of (ensureAuth pb pbConfig w) = Thrown e ->
  outcome_of (invoke pb pbConfig debugLogs getModelName req w) = Thrown e
  /\ data_calls (trace_of (invoke pb pbConfig debugLogs getModelName req w)) = []
  /\ world_of (invoke pb pbConfig debugLogs getModelName req w)
     = world_of (ensureAuth pb pbConfig w).
Proof.
  intros He. rewrite (invoke_bootstrap_thrown _ _ _ _ _ _ _ He).
  split; [done|]. split; [|done].
  apply no_data_calls, ensureAuth_no_data.
Qed.

Lemma bootstrap_failure_reaches_caller_witness :
  outcome_of (invoke Mock.pb
                (PbParams "http://127.0.0.1:8090" (Some "admin@example.com")
                          (Some "password") None)
                false Mock.getModelName (Count "user" None) Mock.down)
  = Thrown "ClientResponseError 0".
Proof.
  apply (bootstrap_failure_reaches_caller Mock.pb
           (PbParams "http://127.0.0.1:8090" (Some "admin@example.com")
                     (Some "password") None)
           false Mock.getModelName (Count "user" None) Mock.down).
  reflexivity.
Defined.

(** X9. An operation that works by filter throws exactly when the
    bootstrap throws, and then with the bootstrap's error: once the
    bootstrap has passed, [findOne], [findMany], [count], [update],
    [updateMany], [delete] and [deleteMany] always return. *)
Theorem filter_operation_throws_iff_bootstrap {World Error : Type}
    (pb : PocketBase World Error) (pbConfig : PbConfig) (debugLogs : bool)
    (getModelName : string -> string) (req : Request) (w : World) (e : Error) :
  is_create req = false ->
  outcome_of (invoke pb pbConfig debugLogs getModelName req w) = Thrown e
  <-> outcome_of (ensureAuth pb pbConfig w) = Thrown e.
Proof.
  intros Hreq. split.
  - destruct (outcome_of (ensureAuth pb pbConfig w)) as [[]|e'] eqn:Hpre.
    + destruct (invoke_returns pb pbConfig debugLogs getModelName req w Hreq)
        as [r ->]; [by exists tt | done].
    + rewrite (invoke_bootstrap_thrown _ _ _ _ _ _ _ Hpre).
      unfold outcome_of. simpl. by intros [= ->].
  - intros He. by rewrite (invoke_bootstrap_thrown _ _ _ _ _ _ _ He).
Qed.

Lemma filter_operation_throws_iff_bootstrap_witness :
  outcome_of (invoke Mock.pb PbInstance false Mock.getModelName
                (DeleteMany "user" None) Mock.down)
  = Thrown "ClientResponseError 0"
  <-> outcome_of (ensureAuth Mock.pb PbInstance Mock.down)
      = Thrown "ClientResponseError 0".
Proof.
  apply (filter_operation_throws_iff_bootstrap Mock.pb PbInstance false
           Mock.getModelName (DeleteMany "user" None) Mock.down).
  reflexivity.
Defined.

Section Bodies.

Context {World Error : Type}.
Variable pb : PocketBase World Error.
Variable pbConfig : PbConfig.
Variable debugLogs : bool.
Variable getModelName : string -> string.

Implicit Types (t : list (Event Error)).

Lemma write_calls_app t1 t2 : write_calls (t1 ++ t2) = write_calls t1 ++ write_calls t2.
Proof. unfold write_calls. by rewrite calls_of_app, List.filter_app. Qed.

Lemma session_no_writes t : Forall is_session_event t -> write_calls t = [].
Proof.
  induction 1 as [|ev t Hev _ IH]; [reflexivity|].
  change (write_calls (ev :: t)) with (write_calls ([ev] ++ t)).
  rewrite write_calls_app, IH. by destruct ev as [[] ?| |].
Qed.

Lemma log_error_trace message (e : Error) (w : World) :
  write_calls (trace_of (log_error debugLogs message e w)) = []
  /\ data_calls (trace_of (log_error debugLogs message e w)) = []
  /\ data_failures (trace_of (log_error debugLogs message e w)) = [].
Proof. unfold log_error. by destruct debugLogs. Qed.

Lemma updateMany_loop_run collectionName update_ records count_ w :
  let x := updateMany_loop pb collectionName update_ records count_ w in
  write_calls (trace_of x) `prefix_of` (update_call collectionName update_ <$> records)
  /\ (data_failures (trace_of x) = [] ->
      outcome_of x = Returned (count_ + Z.of_nat (length records))
      /\ write_calls (trace_of x) = update_call collectionName update_ <$> records).
Proof.
  revert count_ w. induction records as [|record rest IH]; intros count_ w; simpl.
  { split; [apply prefix_nil|]. intros _. split; [|done].
    unfold outcome_of, ret. simpl. f_equal. lia. }
  unfold pb_update. run_op.
  destruct (collection_update _ _ _ _ _) as [w1 [updated|e]]; simpl.
  - specialize (IH (count_ + 1) w1). run_op.
    destruct (updateMany_loop _ _ _ _ _ _) as [[w2 t2] r]; simpl in *.
    destruct IH as [IH1 IH2]. split; [by apply prefix_cons|].
    intros Hnone. destruct (IH2 Hnone) as [-> Hw]. split; [f_equal; lia|].
    unfold write_calls in *. simpl. by f_equal.
  - split; [apply prefix_cons, prefix_nil | done].
Qed.

Lemma deleteMany_loop_run collectionName records count_ w :
  let x := deleteMany_loop pb collectionName records count_ w in
  write_calls (trace_of x) `prefix_of` (delete_call collectionName <$> records)
  /\ (data_failures (trace_of x) = [] ->
      outcome_of x = Returned (count_ + Z.of_nat (length records))
      /\ write_calls (trace_of x) = delete_call collectionName <$> records).
Proof.
  revert count_ w. induction records as [|record rest IH]; intros count_ w; simpl.
  { split; [apply prefix_nil|]. intros _. split; [|done].
    unfold outcome_of, ret. simpl. f_equal. lia. }
  unfold pb_delete. run_op.
  destruct (collection_delete _ _ _ _) as [w1 [deleted|e]]; simpl.
  - specialize (IH (count_ + 1) w1). run_op.
    destruct (deleteMany_loop _ _ _ _ _) as [[w2 t2] r]; simpl in *.
    destruct IH as [IH1 IH2]. split; [by apply prefix_cons|].
    intros Hnone. destruct (IH2 Hnone) as [-> Hw]. split; [f_equal; lia|].
    unfold write_calls in *. simpl. by f_equal.
  - split; [apply prefix_cons, prefix_nil | done].
Qed.

Lemma data_failures_nonempty t :
  data_failures t <> [] -> exists e, e ∈ data_failures t.
Proof. destruct (data_failures t) as [|e l]; [done|]. exists e. constructor. Qed.

End Bodies.

Section BulkRuns.

Context {World Error : Type}.
Variable pb : PocketBase World Error.
Variable pbConfig : PbConfig.
Variable debugLogs : bool.
Variable getModelName : string -> string.

Implicit Types (t : list (Event Error)).

Lemma frame_writes t1 method c t :
  Forall is_session_event t1 -> is_write_call c = false ->
  write_calls (t1 ++ EvDebugLog method :: EvCall c None :: t) = write_calls t.
Proof.
  intros Hpre Hc. rewrite write_calls_app, (session_no_writes _ Hpre).
  unfold write_calls. simpl. by rewrite Hc.
Qed.

Lemma frame_failures t1 method c t :
  Forall is_session_event t1 ->
  data_failures (t1 ++ EvDebugLog method :: EvCall c None :: t) = data_failures t.
Proof.
  intros Hpre. rewrite data_failures_app.
  by rewrite (no_data_failures _ (Forall_impl _ _ _ Hpre session_no_data)).
Qed.

Lemma console_writes t message (e : Error) :
  write_calls (t ++ [EvConsoleError message e]) = write_calls t.
Proof. by rewrite write_calls_app, app_nil_r. Qed.

Lemma console_failures t message (e : Error) :
  data_failures (t ++ [EvConsoleError message e]) = data_failures t.
Proof. by rewrite data_failures_app, app_nil_r. Qed.

(** After the bootstrap and the list request, [updateMany] is its loop:
    same writes, same failures, same count when the loop returns. *)
Lemma updateMany_run model where_ update_ w w1 w2 t1 result :
  ensureAuth pb pbConfig w = (w1, t1, Returned tt) ->
  collection_getList pb (getModelName model) 1 500
    (mkListOptions (or_undefined (parseWhere where_)) None) w1
  = (w2, Returned result) ->
  let x := updateMany pb pbConfig debugLogs getModelName model where_ update_ w in
  let l := updateMany_loop pb (getModelName model) update_ (items result) 0 w2 in
  write_calls (trace_of x) = write_calls (trace_of l)
  /\ data_failures (trace_of x) = data_failures (trace_of l)
  /\ (forall n, outcome_of l = Returned n -> outcome_of x = Returned n).
Proof.
  intros Hauth Hlist.
  pose proof (ensureAuth_session pb pbConfig w) as Hpre.
  unfold updateMany, getList, debugLog, log_error. run_op.
  rewrite Hauth in *. simpl in *. rewrite Hlist. simpl.
  destruct (updateMany_loop _ _ _ _ _ _) as [[w3 t3] [n|e]]; simpl;
    [|destruct debugLogs; simpl];
    rewrite ?app_nil_r; rewrite frame_writes, frame_failures by done;
    rewrite ?console_writes, ?console_failures; done.
Qed.

Lemma deleteMany_run model where_ w w1 w2 t1 result :
  ensureAuth pb pbConfig w = (w1, t1, Returned tt) ->
  collection_getList pb (getModelName model) 1 500
    (mkListOptions (or_undefined (parseWhere where_)) None) w1
  = (w2, Returned result) ->
  let x := deleteMany pb pbConfig debugLogs getModelName model where_ w in
  let l := deleteMany_loop pb (getModelName model) (items result) 0 w2 in
  write_calls (trace_of x) = write_calls (trace_of l)
  /\ data_failures (trace_of x) = data_failures (trace_of l)
  /\ (forall n, outcome_of l = Returned n -> outcome_of x = Returned n).
Proof.
  intros Hauth Hlist.
  pose proof (ensureAuth_session pb pbConfig w) as Hpre.
  unfold deleteMany, getList, debugLog, log_error. run_op.
  rewrite Hauth in *. simpl in *. rewrite Hlist. simpl.
  destruct (deleteMany_loop _ _ _ _ _) as [[w3 t3] [n|e]]; simpl;
    [|destruct debugLogs; simpl];
    rewrite ?app_nil_r; rewrite frame_writes, frame_failures by done;
    rewrite ?console_writes, ?console_failures; done.
Qed.

Lemma after_failure_session t1 t :
  Forall is_session_event t1 ->
  calls_after_failure (t1 ++ t) = calls_after_failure t.
Proof.
  induction 1 as [|ev t1 Hev _ IH]; [reflexivity|].
  pose proof (session_no_data ev Hev) as Hno.
  destruct ev as [c [e|]| |]; simpl in *; try done.
  by rewrite Hno.
Qed.

Lemma after_failure_console t message (e : Error) :
  calls_after_failure (t ++ [EvConsoleError message e]) = calls_after_failure t.
Proof.
  induction t as [|ev t IH]; [reflexivity|]. simpl.
  destruct ev as [c [e'|]| |]; try done.
  destruct (is_data_call c); [|done].
  by rewrite data_calls_app, app_nil_r.
Qed.

Lemma updateMany_loop_stops collectionName update_ records count_ w :
  calls_after_failure
    (trace_of (updateMany_loop pb collectionName update_ records count_ w))
  = [].
Proof.
  revert count_ w. induction records as [|record rest IH]; intros count_ w;
    [reflexivity|]. simpl. unfold pb_update. run_op.
  destruct (collection_update _ _ _ _ _) as [w1 [updated|e]]; [|reflexivity].
  specialize (IH (count_ + 1) w1). run_op.
  by destruct (updateMany_loop _ _ _ _ _ _) as [[w2 t2] r].
Qed.

Lemma deleteMany_loop_stops collectionName records count_ w :
  calls_after_failure
    (trace_of (deleteMany_loop pb collectionName records count_ w))
  = [].
Proof.
  revert count_ w. induction records as [|record rest IH]; intros count_ w;
    [reflexivity|]. simpl. unfold pb_delete. run_op.
  destruct (collection_delete _ _ _ _) as [w1 [deleted|e]]; [|reflexivity].
  specialize (IH (count_ + 1) w1). run_op.
  by destruct (deleteMany_loop _ _ _ _ _) as [[w2 t2] r].
Qed.

Lemma updateMany_stops model where_ update_ w w1 w2 t1 result :
  ensureAuth pb pbConfig w = (w1, t1, Returned tt) ->
  collection_getList pb (getModelName model) 1 500
    (mkListOptions (or_undefined (parseWhere where_)) None) w1
  = (w2, Returned result) ->
  calls_after_failure
    (trace_of (updateMany pb pbConfig debugLogs getModelName
                 model where_ update_ w))
  = [].
Proof.
  intros Hauth Hlist.
  pose proof (ensureAuth_session pb pbConfig w) as Hpre.
  pose proof (updateMany_loop_stops (getModelName model) update_
                (items result) 0 w2) as Hloop.
  unfold updateMany, getList, debugLog, log_error. run_op.
  rewrite Hauth in *. simpl in *. rewrite Hlist. simpl.
  destruct (updateMany_loop _ _ _ _ _ _) as [[w3 t3] [n|e]]; simpl in *;
    [|destruct debugLogs; simpl];
    rewrite ?app_nil_r, after_failure_session by done; simpl;
    by rewrite ?after_failure_console.
Qed.

Lemma deleteMany_stops model where_ w w1 w2 t1 result :
  ensureAuth pb pbConfig w = (w1, t1, Returned tt) ->
  collection_getList pb (getModelName model) 1 500
    (mkListOptions (or_undefined (parseWhere where_)) None) w1
  = (w2, Returned result) ->
  calls_after_failure
    (trace_of (deleteMany pb pbConfig debugLogs getModelName model where_ w))
  = [].
Proof.
  intros Hauth Hlist.
  pose proof (ensureAuth_session pb pbConfig w) as Hpre.
  pose proof (deleteMany_loop_stops (getModelName model)
                (items result) 0 w2) as Hloop.
  unfold deleteMany, getList, debugLog, log_error. run_op.
  rewrite Hauth in *. simpl in *. rewrite Hlist. simpl.
  destruct (deleteMany_loop _ _ _ _ _) as [[w3 t3] [n|e]]; simpl in *;
    [|destruct debugLogs; simpl];
    rewrite ?app_nil_r, after_failure_session by done; simpl;
    by rewrite ?after_failure_console.
Qed.

End BulkRuns.

(** X10. When the bootstrap has passed and the list request of
    [updateMany] (page 1 of 500) has returned, the records of the page
    are patched one by one by identifier, in the order of the page, and
    the first call that throws is the last call made. If no call fails,
    every record of the page is patched and the result is their number;
    if one fails, the result is 0 whatever patches were made before it. *)
Theorem updateMany_patches_page {World Error : Type}
    (pb : PocketBase World Error) (pbConfig : PbConfig) (debugLogs : bool)
    (getModelName : string -> string)
    (model : string) (where_ : option (list Where)) (update_ : RecordModel)
    (w w1 w2 : World) (t1 : list (Event Error)) (result : ListResult) :
  ensureAuth pb pbConfig w = (w1, t1, Returned tt) ->
  collection_getList pb (getModelName model) 1 500
    (mkListOptions
       (if decide (parseWhere where_ = EmptyString) then None
        else Some (parseWhere where_))
       None) w1
  = (w2, Returned result) ->
  let x := updateMany pb pbConfig debugLogs getModelName model where_ update_ w in
  let patches := update_call (getModelName model) update_ <$> items result in
  write_calls (trace_of x) `prefix_of` patches
  /\ calls_after_failure (trace_of x) = []
  /\ (data_failures (trace_of x) = [] ->
      outcome_of x = Returned (Z.of_nat (length (items result)))
      /\ write_calls (trace_of x) = patches)
  /\ (data_failures (trace_of x) <> [] -> outcome_of x = Returned 0).
Proof.
  intros Hauth Hlist x patches.
  destruct (updateMany_run pb pbConfig debugLogs getModelName model where_
              update_ w w1 w2 t1 result Hauth Hlist) as (Hw & Hf & Hn).
  pose proof (updateMany_stops pb pbConfig debugLogs getModelName model where_
                update_ w w1 w2 t1 result Hauth Hlist) as Hstop.
  destruct (updateMany_loop_run pb (getModelName model) update_
              (items result) 0 w2) as [Hprefix Hall].
  fold x in Hw, Hf, Hn, Hstop. rewrite Hw, Hf.
  split; [exact Hprefix|]. split; [exact Hstop|]. split.
  - intros Hnone. destruct (Hall Hnone) as [Hout Hwrites].
    split; [|exact Hwrites]. by apply Hn.
  - rewrite <- Hf. intros [e He]%data_failures_nonempty.
    by eapply updateMany_failure.
Qed.

Lemma updateMany_patches_page_witness :
  outcome_of (updateMany Mock.pb PbInstance false Mock.getModelName "user" None
                {[ "name" := VPrim (PStr "carol") ]} Mock.up)
  = Returned 2
  /\ outcome_of (updateMany (Protecting.pb Protecting.r2) PbInstance false
                  Mock.getModelName "user" None
                  {[ "name" := VPrim (PStr "carol") ]} Mock.up)
     = Returned 0
  /\ calls_after_failure
       (trace_of (updateMany (Protecting.pb Protecting.r2) PbInstance false
                    Mock.getModelName "user" None
                    {[ "name" := VPrim (PStr "carol") ]} Mock.up))
     = [].
Proof.
  pose proof (updateMany_patches_page Mock.pb PbInstance false
                Mock.getModelName "user" None
                {[ "name" := VPrim (PStr "carol") ]}
                Mock.up Mock.up Mock.up []
                (mkListResult (Mock.rows Mock.up) 2) eq_refl eq_refl)
    as (_ & _ & Hall & _).
  pose proof (updateMany_patches_page (Protecting.pb Protecting.r2) PbInstance
                false Mock.getModelName "user" None
                {[ "name" := VPrim (PStr "carol") ]}
                Mock.up Mock.up Mock.up []
                (mkListResult (Mock.rows Mock.up) 2) eq_refl eq_refl)
    as (_ & Hstop & _ & Hfail).
  split; [|split].
  - apply Hall. reflexivity.
  - apply Hfail. vm_compute. discriminate.
  - exact Hstop.
Defined.

(** X11. When the bootstrap has passed and the list request of
    [deleteMany] (page 1 of 500) has returned, the records of the page
    are deleted one by one by identifier, in the order of the page, and
    the first call that throws is the last call made. If no call fails,
    every record of the page is deleted and the result is their number;
    if one fails, the result is 0 whatever deletions were made before
    it. *)
Theorem deleteMany_deletes_page {World Error : Type}
    (pb : PocketBase World Error) (pbConfig : PbConfig) (debugLogs : bool)
    (getModelName : string -> string)
    (model : string) (where_ : option (list Where))
    (w w1 w2 : World) (t1 : list (Event Error)) (result : ListResult) :
  ensureAuth pb pbConfig w = (w1, t1, Returned tt) ->
  collection_getList pb (getModelName model) 1 500
    (mkListOptions
       (if decide (parseWhere where_ = EmptyString) then None
        else Some (parseWhere where_))
       None) w1
  = (w2, Returned result) ->
  let x := deleteMany pb pbConfig debugLogs getModelName model where_ w in
  let deletions := delete_call (getModelName model) <$> items result in
  write_calls (trace_of x) `prefix_of` deletions
  /\ calls_after_failure (trace_of x) = []
  /\ (data_failures (trace_of x) = [] ->
      outcome_of x = Returned (Z.of_nat (length (items result)))
      /\ write_calls (trace_of x) = deletions)
  /\ (data_failures (trace_of x) <> [] -> outcome_of x = Returned 0).
Proof.
  intros Hauth Hlist x deletions.
  destruct (deleteMany_run pb pbConfig debugLogs getModelName model where_
              w w1 w2 t1 result Hauth Hlist) as (Hw & Hf & Hn).
  pose proof (deleteMany_stops pb pbConfig debugLogs getModelName model where_
                w w1 w2 t1 result Hauth Hlist) as Hstop.
  destruct (deleteMany_loop_run pb (getModelName model)
              (items result) 0 w2) as [Hprefix Hall].
  fold x in Hw, Hf, Hn, Hstop. rewrite Hw, Hf.
  split; [exact Hprefix|]. split; [exact Hstop|]. split.
  - intros Hnone. destruct (Hall Hnone) as [Hout Hwrites].
    split; [|exact Hwrites]. by apply Hn.
  - rewrite <- Hf. intros [e He]%data_failures_nonempty.
    by eapply deleteMany_failure.
Qed.

Lemma deleteMany_deletes_page_witness :
  outcome_of (deleteMany Mock.pb PbInstance false Mock.getModelName "user" None
                Mock.up)
  = Returned 2
  /\ outcome_of (deleteMany (Protecting.pb Protecting.r2) PbInstance false
                  Mock.getModelName "user" None Mock.up)
     = Returned 0
  /\ calls_after_failure
       (trace_of (deleteMany (Protecting.pb Protecting.r2) PbInstance false
                    Mock.getModelName "user" None Mock.up))
     = [].
Proof.
  pose proof (deleteMany_deletes_page Mock.pb PbInstance false
                Mock.getModelName "user" None
                Mock.up Mock.up Mock.up []
                (mkListResult (Mock.rows Mock.up) 2) eq_refl eq_refl)
    as (_ & _ & Hall & _).
  pose proof (deleteMany_deletes_page (Protecting.pb Protecting.r2) PbInstance
                false Mock.getModelName "user" None
                Mock.up Mock.up Mock.up []
                (mkListResult (Mock.rows Mock.up) 2) eq_refl eq_refl)
    as (_ & Hstop & _ & Hfail).
  split; [|split].
  - apply Hall. reflexivity.
  - apply Hfail. vm_compute. discriminate.
  - exact Hstop.
Defined.

(** X12. When the list request of [update] returns a page that is not
    empty and the patch of its first record succeeds, only that record is
    patched, by its identifier, and [update] resolves to the record the
    backend returned overlaid with the patch: every key of the patch
    carries the patch's value, every other key the backend's. *)
Theorem update_merges_patch {World Error : Type}
    (pb : PocketBase World Error) (pbConfig : PbConfig) (debugLogs : bool)
    (getModelName : string -> string)
    (model : string) (where_ : option (list Where)) (update_ : RecordModel)
    (w w1 w2 w3 : World) (t1 : list (Event Error)) (result : ListResult)
    (record updated : RecordModel) (rest : list RecordModel) :
  ensureAuth pb pbConfig w = (w1, t1, Returned tt) ->
  collection_getList pb (getModelName model) 1 1
    (mkListOptions (Some (parseWhere where_)) None) w1
  = (w2, Returned result) ->
  items result = record :: rest ->
  collection_update pb (getModelName model) (record_id record) update_ w2
  = (w3, Returned updated) ->
  let x := update pb pbConfig debugLogs getModelName model where_ update_ w in
  exists merged : RecordModel,
    outcome_of x = Returned (Some merged)
    /\ (forall k v, update_ !! k = Some v -> merged !! k = Some v)
    /\ (forall k, update_ !! k = None -> merged !! k = updated !! k)
    /\ write_calls (trace_of x) = [update_call (getModelName model) update_ record]
    /\ world_of x = w3.
Proof.
  intros Hauth Hlist Hitems Hupdate x. subst x.
  pose proof (ensureAuth_session pb pbConfig w) as Hpre.
  exists (update_ ∪ updated).
  unfold update, getList, pb_update, debugLog. run_op.
  rewrite Hauth in *. simpl in *. rewrite Hlist. simpl. rewrite Hitems.
  rewrite Hupdate. simpl.
  split; [done|]. split; [by apply lookup_union_Some_l|].
  split; [by apply lookup_union_r|]. split; [|done].
  by rewrite frame_writes.
Qed.

Lemma update_merges_patch_witness :
  exists merged : RecordModel,
    outcome_of (update Mock.pb PbInstance false Mock.getModelName "user" None
                  {[ "name" := VPrim (PStr "carol") ]} Mock.up)
    = Returned (Some merged)
    /\ merged !! "name" = Some (VPrim (PStr "carol"))
    /\ merged !! "id" = Some (VPrim (PStr "r1")).
Proof.
  destruct (update_merges_patch Mock.pb PbInstance false Mock.getModelName
              "user" None {[ "name" := VPrim (PStr "carol") ]}
              Mock.up Mock.up Mock.up
              (Mock.mkWorld
                 [{[ "name" := VPrim (PStr "carol") ]} ∪ Mock.alice; Mock.bob]
                 true EmptyString false)
              [] (mkListResult [Mock.alice] 2) Mock.alice
              ({[ "name" := VPrim (PStr "carol") ]} ∪ Mock.alice) []
              eq_refl eq_refl eq_refl eq_refl)
    as (merged & Hout & Hpatch & Hother & _).
  exists merged. split; [exact Hout|]. split.
  - apply Hpatch. reflexivity.
  - rewrite Hother; reflexivity.
Defined.



(** X14. When the bootstrap has passed and the list request of [findOne]
    returns, [findOne] resolves to the first record of the page, and to
    null, not to an error, when the page is empty; the request carries
    the compiled filter even when it is the empty string, and nothing is
    written. *)
Theorem findOne_first_or_null {World Error : Type}
    (pb : PocketBase World Error) (pbConfig : PbConfig) (debugLogs : bool)
    (getModelName : string -> string)
    (model : string) (where_ : option (list Where))
    (w w1 w2 : World) (t1 : list (Event Error)) (result : ListResult) :
  ensureAuth pb pbConfig w = (w1, t1, Returned tt) ->
  collection_getList pb (getModelName model) 1 1
    (mkListOptions (Some (parseWhere where_)) None) w1
  = (w2, Returned result) ->
  let x := findOne pb pbConfig debugLogs getModelName model where_ w in
  outcome_of x = Returned (head (items result))
  /\ (items result = [] -> outcome_of x = Returned None)
  /\ data_calls (trace_of x)
     = [CollGetList (getModelName model) 1 1
          (mkListOptions (Some (parseWhere where_)) None)]
  /\ world_of x = w2.
Proof.
  intros Hauth Hlist x. subst x.
  pose proof (no_data_calls _ (ensureAuth_no_data pb pbConfig w)) as Hpre.
  unfold findOne, getList, debugLog. run_op.
  rewrite Hauth in *. simpl in *. rewrite Hlist. simpl.
  split; [done|]. split; [by intros ->|]. split; [|done].
  by rewrite data_calls_app, Hpre.
Qed.

Lemma findOne_first_or_null_witness :
  outcome_of (findOne Mock.pb PbInstance false Mock.getModelName "user"
                (Some []) Mock.empty)
  = Returned None.
Proof.
  refine (proj1 (proj2 (findOne_first_or_null Mock.pb PbInstance false
            Mock.getModelName "user" (Some []) Mock.empty Mock.empty Mock.empty
            [] (mkListResult [] 0) eq_refl eq_refl)) _).
  reflexivity.
Defined.

(** X15. When the bootstrap has passed and the backend accepts the
    record, [create] resolves to the record exactly as the backend
    returned it, after one creation call that carries the data unchanged
    to the collection of the model. *)
Theorem create_returns_backend_record {World Error : Type}
    (pb : PocketBase World Error) (pbConfig : PbConfig) (debugLogs : bool)
    (getModelName : string -> string)
    (data record : RecordModel) (model : string)
    (w w1 w2 : World) (t1 : list (Event Error)) :
  ensureAuth pb pbConfig w = (w1, t1, Returned tt) ->
  collection_create pb (getModelName model) data w1 = (w2, Returned record) ->
  let x := create pb pbConfig debugLogs getModelName data model w in
  outcome_of x = Returned record
  /\ data_calls (trace_of x) = [CollCreate (getModelName model) data]
  /\ world_of x = w2.
Proof.
  intros Hauth Hcreate x. subst x.
  pose proof (no_data_calls _ (ensureAuth_no_data pb pbConfig w)) as Hpre.
  unfold create, debugLog. run_op.
  rewrite Hauth in *. simpl in *. rewrite Hcreate. simpl.
  split; [done|]. split; [|done]. by rewrite data_calls_app, Hpre.
Qed.

Lemma create_returns_backend_record_witness :
  outcome_of (create Mock.pb PbInstance false Mock.getModelName
                Mock.alice "user" Mock.empty)
  = Returned Mock.alice.
Proof.
  exact (proj1 (create_returns_backend_record Mock.pb PbInstance false
                  Mock.getModelName Mock.alice Mock.alice "user"
                  Mock.empty Mock.empty
                  (Mock.mkWorld [Mock.alice] true EmptyString false) []
                  eq_refl eq_refl)).
Defined.

Section Targets.

Context {World Error : Type}.
Variable pb : PocketBase World Error.
Variable pbConfig : PbConfig.
Variable debugLogs : bool.
Variable getModelName : string -> string.

Abbreviation on_target := (on_target_of getModelName).

Lemma updateMany_loop_on_target req model where_ update_ records count_ :
  req = UpdateMany model where_ update_ ->
  quiet (on_target req)
    (updateMany_loop pb (getModelName model) update_ records count_).
Proof.
  intros ->. revert count_.
  induction records as [|record rest IH]; intros count_; simpl.
  - apply quiet_ret.
  - apply quiet_bind; [|by intros _]. by apply quiet_perform.
Qed.

Lemma deleteMany_loop_on_target req model where_ records count_ :
  req = DeleteMany model where_ ->
  quiet (on_target req) (deleteMany_loop pb (getModelName model) records count_).
Proof.
  intros ->. revert count_.
  induction records as [|record rest IH]; intros count_; simpl.
  - apply quiet_ret.
  - apply quiet_bind; [|by intros _]. by apply quiet_perform.
Qed.

Lemma invoke_on_target req :
  quiet (on_target req) (invoke pb pbConfig debugLogs getModelName req).
Proof.
  assert (quiet (on_target req) (ensureAuth pb pbConfig)) as Hpre.
  { eapply quiet_impl; [|apply ensureAuth_session].
    intros [[] ?| |]; simpl; done. }
  assert (forall message e,
             quiet (World := World) (Error := Error) (on_target req)
               (log_error debugLogs message e)) as Hlog.
  { intros message e. by apply log_error_quiet. }
  destruct req; unfold invoke, create, findOne, findMany, count, update,
    updateMany, delete_, deleteMany, debugLog, getList, pb_update, pb_delete;
    repeat first
      [ apply quiet_ret | apply quiet_throw | apply Hpre | apply Hlog
      | by eapply updateMany_loop_on_target
      | by eapply deleteMany_loop_on_target
      | by apply quiet_emit
      | by apply quiet_perform
      | apply quiet_bind; [|intros ?]
      | apply quiet_try_catch; [|intros ?]
      | match goal with |- context [match items ?r with _ => _ end] =>
          destruct (items r) end ].
Qed.

End Targets.

(** X16. Every call on a collection that a method makes addresses the
    collection that [getModelName] gives for the model of the request,
    and is of a kind found in the method's body: [create] only creates,
    [findOne], [findMany] and [count] only list, [update] and
    [updateMany] only list and patch, [delete] and [deleteMany] only list
    and delete. *)
Theorem calls_stay_on_model_collection {World Error : Type}
    (pb : PocketBase World Error) (pbConfig : PbConfig) (debugLogs : bool)
    (getModelName : string -> string) (req : Request) (w : World) :
  Forall (fun c => may_issue req c = true
                   /\ call_collection c = Some (getModelName (request_model req)))
    (data_calls (trace_of (invoke pb pbConfig debugLogs getModelName req w))).
Proof.
  pose proof (invoke_on_target pb pbConfig debugLogs getModelName req w) as H.
  induction H as [|ev t Hev _ IH]; [constructor|].
  change (data_calls (ev :: t)) with (data_calls ([ev] ++ t)).
  rewrite data_calls_app. apply Forall_app. split; [|done].
  destruct ev as [c o| |]; [|constructor..].
  unfold data_calls. simpl. destruct (is_data_call c) eqn:Hc; [|constructor].
  repeat constructor; by apply Hev.
Qed.

(** X17. When all the conditions of a request are skipped by the
    compiler, the request runs as the same request without conditions:
    the same calls, the same result, the same effect on the backend. *)
Theorem skipped_conditions_lift_filter {World Error : Type}
    (pb : PocketBase World Error) (pbConfig : PbConfig) (debugLogs : bool)
    (getModelName : string -> string) (req : Request)
    (items : list Where) (w : World) :
  Forall (fun item => skipped item = true) items ->
  let x := invoke pb pbConfig debugLogs getModelName (set_where req (Some items)) w in
  let y := invoke pb pbConfig debugLogs getModelName (set_where req None) w in
  calls_of (trace_of x) = calls_of (trace_of y)
  /\ outcome_of x = outcome_of y
  /\ world_of x = world_of y.
Proof.
  intros Hskipped%parseWhere_empty_iff x y. subst x y.
  destruct req; unfold set_where, invoke, findOne, findMany, count, update,
    updateMany, delete_, deleteMany; rewrite ?Hskipped; done.
Qed.

Lemma skipped_conditions_lift_filter_witness :
  outcome_of (invoke Mock.pb PbInstance false Mock.getModelName
                (DeleteMany "user" (Some [mkWhere "id" op_in (VPrim (PStr "r1"))]))
                Mock.up)
  = Returned (RNumber 2).
Proof.
  refine (eq_trans
            (proj1 (proj2 (skipped_conditions_lift_filter Mock.pb PbInstance
               false Mock.getModelName (DeleteMany "user" None)
               [mkWhere "id" op_in (VPrim (PStr "r1"))] Mock.up _))) _).
  - by repeat constructor.
  - reflexivity.
Defined.

Section Console.

Context {World Error : Type}.
Variable pb : PocketBase World Error.
Variable pbConfig : PbConfig.
Variable debugLogs : bool.
Variable getModelName : string -> string.

Implicit Types (t : list (Event Error)).

Lemma console_lines_app t1 t2 :
  console_lines (t1 ++ t2) = console_lines t1 ++ console_lines t2.
Proof. apply List.filter_app. Qed.

Lemma session_no_console t : Forall is_session_event t -> console_lines t = [].
Proof.
  induction 1 as [|ev t Hev _ IH]; [reflexivity|].
  change (console_lines (ev :: t)) with (console_lines ([ev] ++ t)).
  rewrite console_lines_app, IH. by destruct ev.
Qed.

Lemma fails_fast_ret {A} (a : A) : fails_fast (World := World) (Error := Error) (ret a).
Proof. by intros w. Qed.

Lemma fails_fast_perform {A} c (f : World -> World * Outcome Error A) :
  is_data_call c = true -> fails_fast (perform c f).
Proof.
  intros Hc w. unfold perform, trace_of, outcome_of, data_failures.
  destruct (f w) as [w1 [a|e]]; simpl; [done|]. by rewrite Hc.
Qed.

Lemma fails_fast_bind {A B} (m : M World Error A) (k : A -> M World Error B) :
  fails_fast m -> (forall a, fails_fast (k a)) -> fails_fast (bind m k).
Proof.
  intros Hm Hk w. destruct (Hm w) as [Hc Hf]. run_op.
  destruct (m w) as [[w1 t1] [a|e]]; simpl in *; [|done].
  destruct (Hk a w1) as [Hc' Hf']. run_op.
  destruct (k a w1) as [[w2 t2] r]; simpl in *.
  by rewrite console_lines_app, data_failures_app, Hc, Hc', Hf, Hf'.
Qed.

Lemma updateMany_loop_fails_fast collectionName update_ records count_ :
  fails_fast (updateMany_loop pb collectionName update_ records count_).
Proof.
  revert count_. induction records as [|record rest IH]; intros count_; simpl.
  - apply fails_fast_ret.
  - apply fails_fast_bind; [by apply fails_fast_perform | by intros _].
Qed.

Lemma deleteMany_loop_fails_fast collectionName records count_ :
  fails_fast (deleteMany_loop pb collectionName records count_).
Proof.
  revert count_. induction records as [|record rest IH]; intros count_; simpl.
  - apply fails_fast_ret.
  - apply fails_fast_bind; [by apply fails_fast_perform | by intros _].
Qed.

Abbreviation handler_line := (handler_line_of debugLogs).

Lemma log_error_line message (e : Error) (w : World) :
  trace_of (log_error debugLogs message e w) = handler_line message e.
Proof. unfold log_error, handler_line_of. by destruct debugLogs. Qed.

Lemma log_then_line {A} message (e : Error) (k : M World Error A) (w : World) :
  (forall w', trace_of (k w') = []) ->
  trace_of (bind (log_error debugLogs message e) (fun _ => k) w)
  = handler_line message e.
Proof.
  intros Hk. unfold log_error, handler_line_of. destruct debugLogs; run_op.
  - specialize (Hk w). destruct (k w) as [[w1 t1] r]; simpl in *. by subst.
  - specialize (Hk w). by destruct (k w) as [[w1 t1] r].
Qed.

Lemma frame_console {A} (pre : M World Error unit) (method message : string)
    (body : M World Error A) (h : Error -> M World Error A) w :
  quiet is_session_event pre ->
  fails_fast body ->
  (forall e w', trace_of (h e w') = handler_line message e) ->
  let x := bind pre (fun _ => bind (debugLog method)
                      (fun _ => try_catch body h)) w in
  console_lines (trace_of x)
  = if debugLogs then EvConsoleError message <$> data_failures (trace_of x)
    else [].
Proof.
  intros Hpre Hbody Hh. specialize (Hpre w). unfold debugLog. run_op.
  pose proof (session_no_console _ Hpre) as Hc1.
  pose proof (no_data_failures _ (Forall_impl _ _ _ Hpre session_no_data)) as Hf1.
  destruct (pre w) as [[w1 t1] [[]|e]]; simpl in *.
  2: { rewrite Hc1, Hf1. by destruct debugLogs. }
  destruct (Hbody w1) as [Hc2 Hf2]. run_op.
  destruct (body w1) as [[w2 t2] [a|e]]; simpl in *.
  - rewrite console_lines_app, data_failures_app, Hc1, Hf1. simpl.
    change (console_lines (EvDebugLog method :: t2)) with (console_lines t2).
    change (data_failures (EvDebugLog method :: t2)) with (data_failures t2).
    rewrite Hc2, Hf2. by destruct debugLogs.
  - specialize (Hh e w2). unfold handler_line_of in Hh. run_op.
    destruct (h e w2) as [[w3 t3] r]; simpl in *. subst t3.
    rewrite console_lines_app, data_failures_app, Hc1, Hf1. simpl.
    change (console_lines (EvDebugLog method :: ?t)) with (console_lines t).
    change (data_failures (EvDebugLog method :: ?t)) with (data_failures t).
    rewrite console_lines_app, data_failures_app, Hc2, Hf2.
    by destruct debugLogs.
Qed.

End Console.

(** X18. The lines a method writes with [console.error] are exactly
    these: with [debugLogs] on, one line for each call on a collection
    that threw, made of the method's message
    [[PocketBase] <Method> error in <collection>:] and the error thrown;
    with [debugLogs] off, none. A login that fails in the bootstrap is
    never logged. *)
Theorem console_lines_report_failures {World Error : Type}
    (pb : PocketBase World Error) (pbConfig : PbConfig) (debugLogs : bool)
    (getModelName : string -> string) (req : Request) (w : World) :
  let t := trace_of (invoke pb pbConfig debugLogs getModelName req w) in
  console_lines t
  = if debugLogs
    then EvConsoleError (error_message req (getModelName (request_model req)))
           <$> data_failures t
    else [].
Proof.
  intros t. subst t.
  destruct req; unfold invoke;
    match goal with
    | |- context [bind ?m (fun a => ret (@?f a))] =>
        rewrite (proj1 (outcome_bind_ret m f w))
    end;
    unfold create, findOne, findMany, count, update, updateMany, delete_,
      deleteMany, getList, pb_update, pb_delete; cbv zeta;
    apply (frame_console debugLogs);
    try apply ensureAuth_session;
    try (intros e w'; first [ by apply log_then_line
                            | apply log_error_line ]);
    repeat first
      [ apply fails_fast_ret
      | apply updateMany_loop_fails_fast | apply deleteMany_loop_fails_fast
      | by apply fails_fast_perform
      | apply fails_fast_bind; [|intros ?]
      | match goal with |- context [match items ?r with _ => _ end] =>
          destruct (items r) end ].
Qed.

Section Sessions.

Context {World Error : Type}.
Variable pb : PocketBase World Error.
Variable debugLogs : bool.
Variable getModelName : string -> string.

Implicit Types (t : list (Event Error)) (Inv : World -> Prop).

Lemma auth_calls_app t1 t2 : auth_calls (t1 ++ t2) = auth_calls t1 ++ auth_calls t2.
Proof. unfold auth_calls. by rewrite calls_of_app, List.filter_app. Qed.

Lemma no_auth_calls t : Forall no_auth_event t -> auth_calls t = [].
Proof.
  induction 1 as [|ev t Hev _ IH]; [reflexivity|].
  change (auth_calls (ev :: t)) with (auth_calls ([ev] ++ t)).
  rewrite auth_calls_app, IH. destruct ev as [c o| |]; [|done..].
  unfold auth_calls. simpl in *. by rewrite Hev.
Qed.

Lemma bind_ret_l {A B} (a : A) (k : A -> M World Error B) w :
  bind (ret a) k w = k a w.
Proof. run_op. by destruct (k a w) as [[w1 t1] r]. Qed.

Lemma bind_factor {A B} (pre : M World Error unit)
    (K : unit -> M World Error A) (k' : A -> M World Error B) w :
  bind (bind pre K) k' w
  = match pre w with
    | (w1, t1, Returned _) =>
        match bind (bind (ret tt) K) k' w1 with
        | (w2, t2, r) => (w2, t1 ++ t2, r)
        end
    | (w1, t1, Thrown e) => (w1, t1, Thrown e)
    end.
Proof.
  run_op. destruct (pre w) as [[w1 t1] [[]|e]]; simpl; [|done].
  destruct (K tt w1) as [[w2 t2] [a|e]]; simpl; [|done].
  destruct (k' a w2) as [[w3 t3] r]; simpl. by rewrite app_assoc.
Qed.

(** An operation is the bootstrap followed by the same operation of an
    adapter built on a live instance. *)
Lemma invoke_factor pbConfig req w :
  invoke pb pbConfig debugLogs getModelName req w
  = match ensureAuth pb pbConfig w with
    | (w1, t1, Returned _) =>
        match invoke pb PbInstance debugLogs getModelName req w1 with
        | (w2, t2, r) => (w2, t1 ++ t2, r)
        end
    | (w1, t1, Thrown e) => (w1, t1, Thrown e)
    end.
Proof.
  destruct req; unfold invoke, create, findOne, findMany, count, update,
    updateMany, delete_, deleteMany; apply bind_factor.
Qed.

Lemma preserves_ret {A} Inv (a : A) : preserves (Error := Error) Inv (ret a).
Proof. by intros w. Qed.

Lemma preserves_throw {A} Inv (e : Error) : preserves (A := A) Inv (throw e).
Proof. by intros w. Qed.

Lemma preserves_emit Inv (ev : Event Error) : preserves Inv (emit ev).
Proof. by intros w. Qed.

Lemma preserves_perform {A} Inv c (f : World -> World * Outcome Error A) :
  (forall w, Inv w -> Inv (f w).1) -> preserves Inv (perform c f).
Proof.
  intros Hf w Hw. specialize (Hf w Hw). unfold perform, world_of.
  by destruct (f w) as [w1 [a|e]].
Qed.

Lemma preserves_bind {A B} Inv (m : M World Error A) (k : A -> M World Error B) :
  preserves Inv m -> (forall a, preserves Inv (k a)) -> preserves Inv (bind m k).
Proof.
  intros Hm Hk w Hw. specialize (Hm w Hw). unfold bind, world_of in *.
  destruct (m w) as [[w1 t1] [a|e]]; simpl in *; [|done].
  specialize (Hk a w1 Hm). unfold world_of in Hk.
  by destruct (k a w1) as [[w2 t2] r].
Qed.

Lemma preserves_try_catch {A} Inv (m : M World Error A) (h : Error -> M World Error A) :
  preserves Inv m -> (forall e, preserves Inv (h e)) -> preserves Inv (try_catch m h).
Proof.
  intros Hm Hh w Hw. specialize (Hm w Hw). unfold try_catch, world_of in *.
  destruct (m w) as [[w1 t1] [a|e]]; simpl in *; [done|].
  specialize (Hh e w1 Hm). unfold world_of in Hh.
  by destruct (h e w1) as [[w2 t2] r].
Qed.

Section Invariant.

Variable Inv : World -> Prop.
Hypothesis Inv_create :
  forall collection data w, Inv w -> Inv (collection_create pb collection data w).1.
Hypothesis Inv_getList :
  forall collection page perPage options w,
    Inv w -> Inv (collection_getList pb collection page perPage options w).1.
Hypothesis Inv_update :
  forall collection id data w, Inv w -> Inv (collection_update pb collection id data w).1.
Hypothesis Inv_delete :
  forall collection id w, Inv w -> Inv (collection_delete pb collection id w).1.

Lemma log_error_preserves message (e : Error) :
  preserves Inv (log_error debugLogs message e).
Proof. unfold log_error. destruct debugLogs; by intros w. Qed.

Lemma updateMany_loop_preserves collectionName update_ records count_ :
  preserves Inv (updateMany_loop pb collectionName update_ records count_).
Proof.
  revert count_. induction records as [|record rest IH]; intros count_; simpl.
  - apply preserves_ret.
  - apply preserves_bind; [|by intros _].
    apply preserves_perform. intros w. apply Inv_update.
Qed.

Lemma deleteMany_loop_preserves collectionName records count_ :
  preserves Inv (deleteMany_loop pb collectionName records count_).
Proof.
  revert count_. induction records as [|record rest IH]; intros count_; simpl.
  - apply preserves_ret.
  - apply preserves_bind; [|by intros _].
    apply preserves_perform. intros w. apply Inv_delete.
Qed.

(** On a live instance an operation keeps every property of the world
    that the four calls on collections keep. *)
Lemma invoke_preserves req :
  preserves Inv (invoke pb PbInstance debugLogs getModelName req).
Proof.
  destruct req; unfold invoke, create, findOne, findMany, count, update,
    updateMany, delete_, deleteMany, debugLog, getList, pb_update, pb_delete,
    ensureAuth;
    repeat first
      [ apply preserves_ret | apply preserves_throw | apply preserves_emit
      | apply log_error_preserves
      | apply updateMany_loop_preserves | apply deleteMany_loop_preserves
      | apply preserves_perform; intros ?;
        first [apply Inv_create | apply Inv_getList
              | apply Inv_update | apply Inv_delete]
      | apply preserves_bind; [|intros ?]
      | apply preserves_try_catch; [|intros ?]
      | match goal with |- context [match items ?r with _ => _ end] =>
          destruct (items r) end ].
Qed.

End Invariant.

End Sessions.

Section TokenSession.

Context {World Error : Type}.
Variable pb : PocketBase World Error.
Variable debugLogs : bool.
Variable getModelName : string -> string.
Variables (url tok : string) (adminEmail adminPassword token : option string).

Hypothesis token_given : truthy_string token = Some tok.
Hypothesis save_stores :
  forall t w, authStore_token pb (authStore_save pb t w) = t.
Hypothesis create_keeps :
  forall collection data w,
    authStore_token pb (collection_create pb collection data w).1
    = authStore_token pb w.
Hypothesis getList_keeps :
  forall collection page perPage options w,
    authStore_token pb (collection_getList pb collection page perPage options w).1
    = authStore_token pb w.
Hypothesis update_keeps :
  forall collection id data w,
    authStore_token pb (collection_update pb collection id data w).1
    = authStore_token pb w.
Hypothesis delete_keeps :
  forall collection id w,
    authStore_token pb (collection_delete pb collection id w).1
    = authStore_token pb w.

Abbreviation with_token := (PbParams url adminEmail adminPassword token).
Abbreviation holds_token := (fun w : World => authStore_token pb w = tok).

Lemma ensureAuth_token_run w :
  ensureAuth pb with_token w
  = if decide (authStore_token pb w = tok) then (w, [], Returned tt)
    else (authStore_save pb tok w, [EvCall (AuthStoreSave tok) None], Returned tt).
Proof.
  unfold ensureAuth. rewrite token_given. run_op. by destruct (decide _).
Qed.

Lemma invoke_live_no_auth req w :
  auth_calls (trace_of (invoke pb PbInstance debugLogs getModelName req w)) = [].
Proof.
  apply no_auth_calls.
  apply (invoke_quiet pb PbInstance debugLogs getModelName no_auth_event
           data_call_no_auth (fun _ => I) (fun _ _ => I) (quiet_ret _ tt)).
Qed.

Lemma invoke_live_holds_token req w :
  holds_token w ->
  holds_token (world_of (invoke pb PbInstance debugLogs getModelName req w)).
Proof.
  apply (invoke_preserves pb debugLogs getModelName holds_token).
  - intros collection data w' <-. apply create_keeps.
  - intros collection page perPage options w' <-. apply getList_keeps.
  - intros collection id data w' <-. apply update_keeps.
  - intros collection id w' <-. apply delete_keeps.
Qed.

Lemma invoke_token_step req w :
  let x := invoke pb with_token debugLogs getModelName req w in
  holds_token (world_of x)
  /\ auth_calls (trace_of x)
     = if decide (authStore_token pb w = tok) then [] else [AuthStoreSave tok].
Proof.
  intros x. subst x. rewrite invoke_factor, ensureAuth_token_run.
  destruct (decide (authStore_token pb w = tok)) as [Hw|Hw].
  - pose proof (invoke_live_no_auth req w) as Hnone.
    pose proof (invoke_live_holds_token req w Hw) as Hkeep.
    unfold trace_of, world_of in *.
    by destruct (invoke _ _ _ _ req w) as [[w2 t2] r].
  - pose proof (invoke_live_no_auth req (authStore_save pb tok w)) as Hnone.
    pose proof (invoke_live_holds_token req (authStore_save pb tok w)
                  (save_stores tok w)) as Hkeep.
    unfold trace_of, world_of in *.
    destruct (invoke _ _ _ _ req _) as [[w2 t2] r]; simpl in *.
    split; [done|]. unfold auth_calls in *. simpl. by rewrite Hnone.
Qed.

Lemma run_requests_token reqs w :
  auth_calls (run_requests pb with_token debugLogs getModelName reqs w).2
  = match reqs with
    | [] => []
    | _ :: _ =>
        if decide (authStore_token pb w = tok) then [] else [AuthStoreSave tok]
    end.
Proof.
  revert w. induction reqs as [|req rest IH]; intros w; [reflexivity|]. simpl.
  destruct (invoke_token_step req w) as [Hkeep Hcalls].
  unfold trace_of, world_of in *.
  destruct (invoke _ _ _ _ req w) as [[w1 t1] r]; simpl in *.
  specialize (IH w1).
  destruct (run_requests _ _ _ _ rest w1) as [w2 t2]; simpl in *.
  rewrite auth_calls_app, Hcalls, IH.
  destruct rest; simpl; [by rewrite app_nil_r|].
  rewrite (decide_True (P := authStore_token pb w1 = tok)) by done.
  by rewrite app_nil_r.
Qed.

End TokenSession.

(** X19. With an adapter built on connection parameters that carry a
    token, a client that keeps the token it is given, and calls on
    collections that leave the token alone, any sequence of requests
    makes no login at all and at most one token write: the write of the
    supplied token by the first request, and none if the handle already
    holds that token. *)
Theorem token_written_at_most_once {World Error : Type}
    (pb : PocketBase World Error) (debugLogs : bool)
    (getModelName : string -> string)
    (url tok : string) (adminEmail adminPassword token : option string)
    (reqs : list Request) (w : World) :
  truthy_string token = Some tok ->
  (forall t w', authStore_token pb (authStore_save pb t w') = t) ->
  (forall collection data w',
      authStore_token pb (collection_create pb collection data w').1
      = authStore_token pb w') ->
  (forall collection page perPage options w',
      authStore_token pb (collection_getList pb collection page perPage options w').1
      = authStore_token pb w') ->
  (forall collection id data w',
      authStore_token pb (collection_update pb collection id data w').1
      = authStore_token pb w') ->
  (forall collection id w',
      authStore_token pb (collection_delete pb collection id w').1
      = authStore_token pb w') ->
  let t := (run_requests pb (PbParams url adminEmail adminPassword token)
              debugLogs getModelName reqs w).2 in
  (length (auth_calls t) <= 1)%nat
  /\ Forall (fun c => c = AuthStoreSave tok) (auth_calls t)
  /\ (authStore_token pb w = tok -> auth_calls t = []).
Proof.
  intros Htok Hsave Hc Hg Hu Hd t. subst t.
  rewrite (run_requests_token pb debugLogs getModelName url tok adminEmail
             adminPassword token Htok Hsave Hc Hg Hu Hd).
  destruct reqs; [by repeat constructor|].
  destruct (decide (authStore_token pb w = tok)); simpl;
    repeat split; try done; try lia; by repeat constructor.
Qed.

Lemma token_written_at_most_once_witness :
  let t := (run_requests Mock.pb
              (PbParams "http://127.0.0.1:8090" None None (Some "jwt"))
              false Mock.getModelName
              [Count "user" None; FindOne "user" None; DeleteMany "user" None]
              Mock.up).2 in
  (length (auth_calls t) <= 1)%nat
  /\ Forall (fun c => c = AuthStoreSave "jwt") (auth_calls t)
  /\ (authStore_token Mock.pb Mock.up = "jwt" -> auth_calls t = []).
Proof.
  apply (token_written_at_most_once Mock.pb false Mock.getModelName
           "http://127.0.0.1:8090" "jwt" None None (Some "jwt")
           [Count "user" None; FindOne "user" None; DeleteMany "user" None]
           Mock.up).
  - reflexivity.
  - reflexivity.
  - intros collection data w'. unfold Mock.pb, Mock.guard. simpl.
    by destruct (Mock.online w').
  - intros collection page perPage options w'. unfold Mock.pb, Mock.guard. simpl.
    by destruct (Mock.online w').
  - intros collection id data w'. unfold Mock.pb, Mock.guard. simpl.
    destruct (Mock.online w'); [|done]. by destruct (List.find _ _).
  - intros collection id w'. unfold Mock.pb, Mock.guard. simpl.
    by destruct (Mock.online w').
Defined.
